(** * esal.events: headers, events and partial matching

    A shallow embedding of [src/esal/events.py].  Python objects are a
    small universe of first-order values; exceptions are an explicit
    result type; the calls a match makes to user predicates are logged. *)

From Stdlib Require Import ZArith Lia Bool.
From stdpp Require Import gmap strings list.

Set Warnings "-register-all".
#[local] Open Scope string_scope.
#[local] Open Scope list_scope.
#[local] Open Scope Z_scope.

(** ** Python objects *)

(** The objects that events, keys and criteria range over.  Function
    objects are named by their identity; their code lives in a table that
    the matching section takes as a variable.  A slice object holds any
    three objects.  Floats and instances of user classes are not among
    these objects; what matching does with objects of any kind is the
    subject of [Module Dynamic] below. *)
Inductive value : Type :=
| VNone
| VBool (b : bool)
| VInt (n : Z)
| VStr (s : string)
| VTuple (items : list value)
| VSlice (start stop step : value)
| VFunc (f : nat)
| VAny.

(** Modelled from the spec: [esal.general.Any], imported by events.py but
    not among the sources.  The spec calls it the distinguished WILDCARD
    value; it is taken to be a plain sentinel made with [object()]: equal
    to itself only, truthy, not callable. *)
Definition Any : value := VAny.

Inductive exn_kind := IndexError | KeyError | TypeError | ValueError.

(** An exception is its class and the argument it was raised with. *)
Record exn := Exn { kind : exn_kind; arg : value }.

Inductive result (A : Type) : Type :=
| Ok (a : A)
| Raise (e : exn).
Arguments Ok {A} a.
Arguments Raise {A} e.

Definition fails_with {A} (k : exn_kind) (r : result A) : Prop :=
  match r with
  | Ok _ => False
  | Raise e => kind e = k
  end.

Definition rbind {A B} (r : result A) (k : A -> result B) : result B :=
  match r with
  | Ok a => k a
  | Raise e => Raise e
  end.

Declare Scope py_scope.
Delimit Scope py_scope with py.
Notation "'let*' x ':=' r 'in' k" := (rbind r (fun x => k))
  (at level 10, x name, r at level 100, k at level 200) : py_scope.
#[local] Open Scope py_scope.

(** [isinstance(v, int)]: [bool] is a subclass of [int]. *)
Definition isinstance_int (v : value) : bool :=
  match v with
  | VInt _ | VBool _ => true
  | _ => false
  end.

Definition isinstance_str (v : value) : bool :=
  match v with
  | VStr _ => true
  | _ => false
  end.

Definition isinstance_slice (v : value) : bool :=
  match v with
  | VSlice _ _ _ => true
  | _ => false
  end.

(** The integer an [int] instance stands for ([True] is 1). *)
Definition int_value (v : value) : Z :=
  match v with
  | VInt n => n
  | VBool b => Z.b2z b
  | _ => 0
  end.

(** [type(v).__name__], as the interpreter quotes it in its messages. *)
Definition type_name (v : value) : string :=
  match v with
  | VNone => "NoneType"
  | VBool _ => "bool"
  | VInt _ => "int"
  | VStr _ => "str"
  | VTuple _ => "tuple"
  | VSlice _ _ _ => "slice"
  | VFunc _ => "function"
  | VAny => "object"
  end.

(** [a == b] on these objects: numbers by value across [bool] and [int],
    strings, tuples and slices structurally, functions and sentinels by
    identity.  On these objects [==] neither raises nor returns anything
    but a boolean. *)
Fixpoint py_eq (a b : value) : bool :=
  match a, b with
  | VNone, VNone => true
  | VBool x, VBool y => Z.b2z x =? Z.b2z y
  | VBool x, VInt y => Z.b2z x =? y
  | VInt x, VBool y => x =? Z.b2z y
  | VInt x, VInt y => x =? y
  | VStr s, VStr t => String.eqb s t
  | VTuple l1, VTuple l2 =>
      (fix items_eq (l1 l2 : list value) {struct l1} : bool :=
         match l1, l2 with
         | [], [] => true
         | x :: xs, y :: ys => py_eq x y && items_eq xs ys
         | _, _ => false
         end) l1 l2
  | VSlice a1 b1 c1, VSlice a2 b2 c2 =>
      py_eq a1 a2 && py_eq b1 b2 && py_eq c1 c2
  | VFunc f, VFunc g => Nat.eqb f g
  | VAny, VAny => true
  | _, _ => false
  end.

(** [a is b] is only ever asked against the sentinel. *)
Definition is_Any (v : value) : bool :=
  match v with
  | VAny => true
  | _ => false
  end.

(** [bool(v)] *)
Definition truthy (v : value) : bool :=
  match v with
  | VNone => false
  | VBool b => b
  | VInt n => negb (n =? 0)
  | VStr s => negb (String.eqb s "")
  | VTuple l => negb (Nat.eqb (length l) 0)
  | VSlice _ _ _ => true
  | VFunc _ => true
  | VAny => true
  end.

Definition callable (v : value) : bool :=
  match v with
  | VFunc _ => true
  | _ => false
  end.

Definition is_bool (v : value) : bool :=
  match v with
  | VBool _ => true
  | _ => false
  end.

(** ** Native tuple indexing *)

Definition tuple_index_error : exn :=
  Exn IndexError (VStr "tuple index out of range").

(** The largest index the interpreter can hold (a 64-bit build). *)
Definition PY_SSIZE_T_MAX : Z := 2 ^ 63 - 1.

(** The IndexError for an integer that indexes no item.  A tuple holds at
    most [PY_SSIZE_T_MAX] items, so an integer that does not fit an index
    is out of range, and the interpreter says so in its own words. *)
Definition index_error_for (i : Z) : exn :=
  if (i <? - PY_SSIZE_T_MAX - 1) || (PY_SSIZE_T_MAX <? i)
  then Exn IndexError (VStr "cannot fit 'int' into an index-sized integer")
  else tuple_index_error.

(** [t[i]] for an integer [i]: a negative index counts from the end. *)
Definition tuple_item (t : list value) (i : Z) : result value :=
  let n := Z.of_nat (length t) in
  let j := if i <? 0 then i + n else i in
  if (j <? 0) || (n <=? j) then Raise (index_error_for i)
  else match t !! Z.to_nat j with
       | Some v => Ok v
       | None => Raise (index_error_for i)
       end.

(** One of the three objects of a slice, as an index: [None] stands for the
    default, an integer for itself, nothing else is accepted. *)
Definition slice_index (b : value) : result (option Z) :=
  match b with
  | VNone => Ok None
  | VInt _ | VBool _ => Ok (Some (int_value b))
  | _ => Raise (Exn TypeError (VStr
           "slice indices must be integers or None or have an __index__ method"))
  end.

(** Clamp one slice bound into the tuple, as the interpreter does. *)
Definition adjust_bound (n step : Z) (b : Z) : Z :=
  if b <? 0 then
    (if b + n <? 0 then (if step <? 0 then -1 else 0) else b + n)
  else if n <=? b then (if step <? 0 then n - 1 else n)
  else b.

Definition slice_length (start stop step : Z) : Z :=
  if step <? 0 then
    (if stop <? start then (start - stop - 1) / (- step) + 1 else 0)
  else
    (if start <? stop then (stop - start - 1) / step + 1 else 0).

(** The items of [t] that a slice with these indices ([None] for a bound
    left out) and this step, not zero, selects. *)
Definition slice_items (t : list value) (start stop : option Z) (st : Z)
  : list value :=
  let n := Z.of_nat (length t) in
  let lo := match start with
            | Some b => adjust_bound n st b
            | None => if st <? 0 then n - 1 else 0
            end in
  let hi := match stop with
            | Some b => adjust_bound n st b
            | None => if st <? 0 then -1 else n
            end in
  let count := Z.to_nat (slice_length lo hi st) in
  omap (fun k => t !! Z.to_nat (lo + Z.of_nat k * st)) (seq 0 count).

(** [t[start:stop:step]]: the step is read first, then the start, then the
    stop. *)
Definition tuple_slice (t : list value) (start stop step : value)
  : result value :=
  let* step_index := slice_index step in
  let st := default 1 step_index in
  if st =? 0 then Raise (Exn ValueError (VStr "slice step cannot be zero"))
  else
    let* start_index := slice_index start in
    let* stop_index := slice_index stop in
    Ok (VTuple (slice_items t start_index stop_index st)).

(** An object that a slice accepts as one of its parts. *)
Definition is_slice_index (b : value) : bool :=
  match b with
  | VNone | VInt _ | VBool _ => true
  | _ => false
  end.

(** A step that is the integer zero ([False] is one). *)
Definition is_zero_step (step : value) : bool :=
  isinstance_int step && (int_value step =? 0).

(** [tuple.__getitem__(t, key)] *)
Definition tuple_getitem (t : list value) (key : value) : result value :=
  match key with
  | VInt _ | VBool _ => tuple_item t (int_value key)
  | VSlice start stop step => tuple_slice t start stop step
  | _ => Raise (Exn TypeError (VStr
           ("tuple indices must be integers or slices, not " +:+ type_name key)))
  end.

(** [enumerate(l)] *)
Fixpoint enumerate_from {A} (i : Z) (l : list A) : list (Z * A) :=
  match l with
  | [] => []
  | x :: xs => (i, x) :: enumerate_from (i + 1) xs
  end.

Definition enumerate {A} (l : list A) : list (Z * A) := enumerate_from 0 l.

(** [dict(pairs)]: the pairs are stored in order, so a later pair replaces
    an earlier one with the same key. *)
Definition dict `{Countable K} {V} (pairs : list (K * V)) : gmap K V :=
  fold_left (fun m kv => <[kv.1 := kv.2]> m) pairs ∅.

(** ** Header *)

Module Header.

Record t := Build {
  idxs_to_names : list string;
  names_to_idxs : gmap string Z
}.

(** Creates a header using the given field names, in order. *)
Definition __init__ (names : list string) : t :=
  {| idxs_to_names := names;
     names_to_idxs :=
       dict (map (fun '(index, name) => (name, index)) (enumerate names)) |}.

(** Returns the number of fields. *)
Definition __len__ (self : t) : Z := Z.of_nat (length (idxs_to_names self)).

(** Returns the index of the given key (name or index). *)
Definition __getitem__ (self : t) (key : value) : result value :=
  if isinstance_int key then
    if (int_value key <? 0) || (Z.of_nat (length (idxs_to_names self)) <=? int_value key)
    then Raise (Exn IndexError key)
    else Ok key
  else match key with
       | VStr name =>
           match names_to_idxs self !! name with
           | Some index => Ok (VInt index)
           | None => Raise (Exn KeyError key)
           end
       | _ => Raise (Exn KeyError key)
       end.

(** Returns the name of the given index. *)
Definition name_of (self : t) (index : value) : result value :=
  tuple_getitem (map VStr (idxs_to_names self)) index.

(** Returns the index of the given name. *)
Definition index_of (self : t) (name : string) : result Z :=
  match names_to_idxs self !! name with
  | Some index => Ok index
  | None => Raise (Exn KeyError (VStr name))
  end.

(** Names of the fields in this header. *)
Definition names (self : t) : list string := idxs_to_names self.

End Header.

(** ** Calling user predicates *)

(** A computation that may call function objects returns its outcome and
    the calls it made, in order: which function, on which argument. *)
Definition invocation : Type := nat * value.
Definition M (A : Type) : Type := result A * list invocation.

Definition ret {A} (a : A) : M A := (Ok a, []).
Definition raise {A} (e : exn) : M A := (Raise e, []).

Definition bind {A B} (m : M A) (k : A -> M B) : M B :=
  match m with
  | (Ok a, calls) => let (r, calls') := k a in (r, calls ++ calls')
  | (Raise e, calls) => (Raise e, calls)
  end.

Notation "'let!' x ':=' m 'in' k" := (bind m (fun x => k))
  (at level 10, x name, m at level 100, k at level 200) : py_scope.

(** [a or b]: the value of [a] when it is truthy, else that of [b], which is
    evaluated only then. *)
Definition py_or (a b : M value) : M value :=
  let! x := a in if truthy x then ret x else b.

(** [a and b]: the value of [a] when it is falsy, else that of [b]. *)
Definition py_and (a b : M value) : M value :=
  let! x := a in if truthy x then b else ret x.

Definition outcome {A} (m : M A) : result A := fst m.
Definition calls_made {A} (m : M A) : list invocation := snd m.

(** The computation ends normally with a truthy value. *)
Definition returns_truthy (m : M value) : Prop :=
  exists r, outcome m = Ok r /\ truthy r = true.

Section Matching.

(** The code of the function objects: what calling function [f] on an
    argument returns or raises. *)
Variable code : nat -> value -> result value.

(** [f(x)] *)
Definition py_call (f x : value) : M value :=
  match f with
  | VFunc id => (code id x, [(id, x)])
  | _ => raise (Exn TypeError (VStr
           ("'" +:+ type_name f +:+ "' object is not callable")))
  end.

Definition _valuepred_matches_value (valuepred v : value) : M value :=
  py_or (ret (VBool (is_Any valuepred)))
    (py_or (ret (VBool (py_eq valuepred v)))
       (py_and (ret (VBool (callable valuepred))) (py_call valuepred v))).

End Matching.

(** ** Ordering of tuples and sort keys *)

Section TupleOrder.

Context {A : Type} (eqb ltb gtb : A -> A -> bool).

(** [a == b] on tuples: the same length and the items pairwise equal. *)
Fixpoint tuple_eqb (a b : list A) : bool :=
  match a, b with
  | [], [] => true
  | x :: xs, y :: ys => eqb x y && tuple_eqb xs ys
  | _, _ => false
  end.

(** [a < b] on tuples: the first pair of items that differ decides; when
    one tuple is a prefix of the other, the shorter one is smaller. *)
Fixpoint tuple_ltb (a b : list A) : bool :=
  match a, b with
  | x :: xs, y :: ys => if eqb x y then tuple_ltb xs ys else ltb x y
  | [], _ :: _ => true
  | _, [] => false
  end.

(** [a > b] on tuples, by the same search. *)
Fixpoint tuple_gtb (a b : list A) : bool :=
  match a, b with
  | x :: xs, y :: ys => if eqb x y then tuple_gtb xs ys else gtb x y
  | _ :: _, [] => true
  | [], _ => false
  end.

End TupleOrder.

(** A canonical key is a tuple of integers; a sort key is a tuple of
    canonical keys.  Both are compared as Python compares tuples. *)
Definition canon : Type := list Z.

Definition canon_eqb : canon -> canon -> bool := tuple_eqb Z.eqb.
Definition canon_ltb : canon -> canon -> bool := tuple_ltb Z.eqb Z.ltb.
Definition canon_gtb : canon -> canon -> bool := tuple_gtb Z.eqb Z.gtb.

Definition key_eqb : list canon -> list canon -> bool := tuple_eqb canon_eqb.
Definition key_ltb : list canon -> list canon -> bool :=
  tuple_ltb canon_eqb canon_ltb.
Definition key_gtb : list canon -> list canon -> bool :=
  tuple_gtb canon_eqb canon_gtb.

(** Modelled from the spec: the per-value canonicalization behind
    [esal.general.iterable_sort_key], which is not among the sources.  The
    spec asks for a representation that makes absent values and values of
    different types mutually orderable: a tag for the kind of value, the
    absent value first, then a payload that orders values of that kind
    (numbers by value, strings by their characters). *)
Fixpoint canonical (v : value) : canon :=
  match v with
  | VNone => [0]
  | VBool b => [1; Z.b2z b]
  | VInt n => [1; n]
  | VStr s => 2 :: map (fun c => Z.of_nat (Ascii.nat_of_ascii c))
                       (String.list_ascii_of_string s)
  | VTuple items =>
      3 :: (fix all (l : list value) : canon :=
              match l with
              | [] => []
              | x :: xs => canonical x ++ all xs
              end) items
  | VSlice start stop step =>
      4 :: canonical start ++ canonical stop ++ canonical step
  | VFunc f => [5; Z.of_nat f]
  | VAny => [6]
  end.

(** Modelled from the spec: [esal.general.iterable_sort_key], which is not
    among the sources: each value of the iterable, in order, mapped through
    the canonicalization. *)
Definition iterable_sort_key (it : list value) : list canon :=
  map canonical it.

(** [sorted(l, key=key)]: a stable sort that compares keys with [<] only.
    Each item goes in front of the first item whose key is greater. *)
Fixpoint insert_by_key {A} (key : A -> list canon) (x : A) (l : list A)
  : list A :=
  match l with
  | [] => [x]
  | y :: ys =>
      if key_ltb (key x) (key y) then x :: y :: ys
      else y :: insert_by_key key x ys
  end.

Definition sorted {A} (l : list A) (key : A -> list canon) : list A :=
  fold_left (fun acc x => insert_by_key key x acc) l [].

(** Exactly one of three tests holds. *)
Definition exactly_one (p q r : bool) : bool :=
  match p, q, r with
  | true, false, false | false, true, false | false, false, true => true
  | _, _, _ => false
  end.

(** ** Event *)

Definition _EVENT_FIELD_NAMES : list string :=
  ["seq"; "time"; "dura"; "ev"; "val"].

(** Position of a name among the field names a namedtuple was made with. *)
Fixpoint field_position (name : string) (names : list string) : option nat :=
  match names with
  | [] => None
  | n :: rest =>
      if String.eqb name n then Some O
      else S <$> field_position name rest
  end.

Module Event.

(** Event(sequence_id, start_time, duration, event, value) *)
Record t := Build {
  seq : value;
  time : value;
  dura : value;
  ev : value;
  val : value
}.

(** The underlying 5-tuple. *)
Definition astuple (self : t) : list value :=
  [seq self; time self; dura self; ev self; val self].

Definition _header : Header.t := Header.__init__ _EVENT_FIELD_NAMES.

(** Every argument may be left out and is then [None]. *)
Definition __new__ (seq time dura ev val : option value) : t :=
  Build (default VNone seq) (default VNone time) (default VNone dura)
        (default VNone ev) (default VNone val).

(** Returns the item corresponding to the given key which may be the index
    or name of a field.  The index found for a name is an integer, so the
    nested [self[index]] takes the first branch. *)
Definition __getitem__ (self : t) (key : value) : result value :=
  if isinstance_int key || isinstance_slice key then
    tuple_getitem (astuple self) key
  else if isinstance_str key then
    match key with
    | VStr name =>
        let* index := Header.index_of _header name in
        tuple_getitem (astuple self) (VInt index)
    | _ => Raise (Exn KeyError key)
    end
  else Raise (Exn KeyError key).

(** Attribute access to a field: namedtuple gives the field named at
    position [i] a getter for item [i] of the tuple.  [None] for a name that
    is not a field. *)
Definition attribute (self : t) (name : string) : option value :=
  i ← field_position name _EVENT_FIELD_NAMES; astuple self !! i.

(** Header describing this Event record. *)
Definition header (self : t) : Header.t := _header.

(** Returns a key for sorting this event. *)
Definition sort_key (self : t) : list canon :=
  iterable_sort_key (astuple self).

Section Matches.

Variable code : nat -> value -> result value.

(** Returns true if the fields of this event are equal to all of the given
    values; that is, a partial equality match.  A criterion left out is
    [Any]. *)
Definition matches (self : t) (seq time dura ev val : value) : M value :=
  py_and (_valuepred_matches_value code ev (Event.ev self))
    (py_and (_valuepred_matches_value code time (Event.time self))
       (py_and (_valuepred_matches_value code val (Event.val self))
          (py_and (_valuepred_matches_value code dura (Event.dura self))
             (_valuepred_matches_value code seq (Event.seq self))))).

End Matches.

End Event.

(** ** Vocabulary of the matching properties *)

Section Criteria.

Variable code : nat -> value -> result value.

(** A criterion is satisfied by a field value: it is the wildcard, or it is
    equal to the value, or it is a function object whose call on the value
    returns something truthy. *)
Definition criterion_satisfied (c v : value) : Prop :=
  c = Any
  \/ py_eq c v = true
  \/ exists f r, c = VFunc f /\ code f v = Ok r /\ truthy r = true.



End Criteria.

(** The criteria of a match, each with the field it is tested against, in
    the order of evaluation. *)
Definition criteria_in_order (e : Event.t) (seq time dura ev val : value)
  : list (value * value) :=
  [(ev, Event.ev e); (time, Event.time e); (val, Event.val e);
   (dura, Event.dura e); (seq, Event.seq e)].

(** The call a criterion leads to when it is checked against a field value:
    none for the wildcard, for a criterion equal to the value and for one
    that is not callable. *)
Definition expected_call (cv : value * value) : option invocation :=
  if is_Any cv.1 then None
  else if py_eq cv.1 cv.2 then None
  else match cv.1 with
       | VFunc f => Some (f, cv.2)
       | _ => None
       end.

(** [m1 and m2 and ... and mk] for a chain of at least one check. *)
Fixpoint py_all (checks : list (M value)) : M value :=
  match checks with
  | [] => ret (VBool true)
  | m :: rest =>
      match rest with
      | [] => m
      | _ :: _ => py_and m (py_all rest)
      end
  end.

(** ** Matching over objects of any kind *)

(** [matches] never looks inside the objects it is given: it asks whether
    one is the sentinel, compares two with [==], takes truth values, asks
    [callable], and calls.  [==] runs the [__eq__] of its operands and a
    truth value their [__bool__]: either may raise, and [==] may return any
    object.  An object model says what these five operations do on a type
    [Obj] of objects with exceptions of type [Err]; [inl] is an exception
    raised, [inr] a value returned. *)
Class Objects (Obj Err : Type) := {
  obj_Any : Obj;
  obj_True : Obj;
  obj_False : Obj;
  obj_is_Any : Obj -> bool;
  obj_eq : Obj -> Obj -> sum Err Obj;
  obj_bool : Obj -> sum Err bool;
  obj_callable : Obj -> bool;
  obj_call : Obj -> Obj -> sum Err Obj;
  obj_is_Any_spec : forall x, obj_is_Any x = true <-> x = obj_Any;
  obj_bool_True : obj_bool obj_True = inr true;
  obj_bool_False : obj_bool obj_False = inr false
}.

Module Dynamic.

(** The five fields of an event, as objects of any kind. *)
Record Event (Obj : Type) := Build {
  seq : Obj;
  time : Obj;
  dura : Obj;
  ev : Obj;
  val : Obj
}.
Arguments Build {Obj} _ _ _ _ _.
Arguments seq {Obj} _.
Arguments time {Obj} _.
Arguments dura {Obj} _.
Arguments ev {Obj} _.
Arguments val {Obj} _.

Section Matching.

Context {Obj Err : Type} {objs : Objects Obj Err}.

(** The object [True] or [False]. *)
Definition of_bool (b : bool) : Obj := if b then obj_True else obj_False.

(** [a or b]: the truth value of [a] is taken; [a] itself is the result
    when it is truthy, else [b], whose truth value is not taken. *)
Definition py_or (a b : sum Err Obj) : sum Err Obj :=
  match a with
  | inl e => inl e
  | inr x =>
      match obj_bool x with
      | inl e => inl e
      | inr true => inr x
      | inr false => b
      end
  end.

(** [a and b] *)
Definition py_and (a b : sum Err Obj) : sum Err Obj :=
  match a with
  | inl e => inl e
  | inr x =>
      match obj_bool x with
      | inl e => inl e
      | inr true => b
      | inr false => inr x
      end
  end.

Definition _valuepred_matches_value (valuepred v : Obj) : sum Err Obj :=
  py_or (inr (of_bool (obj_is_Any valuepred)))
    (py_or (obj_eq valuepred v)
       (py_and (inr (of_bool (obj_callable valuepred)))
               (obj_call valuepred v))).

Definition matches (self : Event Obj) (seq time dura ev val : Obj) : sum Err Obj :=
  py_and (_valuepred_matches_value ev (Dynamic.ev self))
    (py_and (_valuepred_matches_value time (Dynamic.time self))
       (py_and (_valuepred_matches_value val (Dynamic.val self))
          (py_and (_valuepred_matches_value dura (Dynamic.dura self))
             (_valuepred_matches_value seq (Dynamic.seq self))))).

(** The criteria with their fields, in the order of evaluation. *)
Definition criteria_in_order (e : Event Obj) (seq time dura ev val : Obj)
  : list (Obj * Obj) :=
  [(ev, Dynamic.ev e); (time, Dynamic.time e); (val, Dynamic.val e);
   (dura, Dynamic.dura e); (seq, Dynamic.seq e)].

(** Comparing the criterion with the field returns [True] or [False]. *)
Definition boolean_eq (c v : Obj) : Prop :=
  exists b, obj_eq c v = inr (of_bool b).

(** The criterion, if callable, returns [True] or [False] on the field. *)
Definition boolean_call (c v : Obj) : Prop :=
  obj_callable c = true -> exists b, obj_call c v = inr (of_bool b).

(** The match ends normally with a truthy object. *)
Definition returns_truthy (m : sum Err Obj) : Prop :=
  exists r, m = inr r /\ obj_bool r = inr true.

(** A criterion is satisfied by a field: it is the sentinel; or comparing
    it with the field returns a truthy object; or that returns a falsy
    object, the criterion is callable, and calling it on the field returns
    a truthy object. *)
Definition satisfied (c v : Obj) : Prop :=
  c = obj_Any
  \/ (exists r, obj_eq c v = inr r /\ obj_bool r = inr true)
  \/ (exists r r', obj_eq c v = inr r /\ obj_bool r = inr false
                   /\ obj_callable c = true
                   /\ obj_call c v = inr r' /\ obj_bool r' = inr true).

(** Checking the criterion against the field is what raised [ex]: the
    comparison raised it, or taking the truth value of what the comparison
    returned did, or, the comparison being falsy and the criterion
    callable, the call raised it or taking the truth value of what the call
    returned did. *)
Definition raised_by (c v : Obj) (ex : Err) : Prop :=
  obj_is_Any c = false
  /\ (obj_eq c v = inl ex
      \/ (exists r, obj_eq c v = inr r /\ obj_bool r = inl ex)
      \/ (exists r, obj_eq c v = inr r /\ obj_bool r = inr false
                    /\ obj_callable c = true
                    /\ (obj_call c v = inl ex
                        \/ exists r', obj_call c v = inr r'
                                      /\ obj_bool r' = inl ex))).

End Matching.

End Dynamic.

(** A computation of the built-in objects, without its log. *)
Definition to_sum {A} (r : result A) : sum exn A :=
  match r with
  | Ok a => inr a
  | Raise e => inl e
  end.

(** The built-in objects of [value] as an object model: [==] is [py_eq],
    truth values are [truthy], calls run the code of function objects. *)
#[export] Instance builtin_objects (code : nat -> value -> result value)
  : Objects value exn.
Proof.
  refine {| obj_Any := Any;
            obj_True := VBool true;
            obj_False := VBool false;
            obj_is_Any := is_Any;
            obj_eq := fun a b => inr (VBool (py_eq a b));
            obj_bool := fun a => inr (truthy a);
            obj_callable := callable;
            obj_call := fun f x => to_sum (outcome (py_call code f x)) |}.
  - intros x. destruct x; simpl; split; intros; done.
  - reflexivity.
  - reflexivity.
Defined.

(** An event of built-in objects as an event of the object model. *)
Definition as_dynamic (e : Event.t) : Dynamic.Event value :=
  Dynamic.Build (Event.seq e) (Event.time e) (Event.dura e) (Event.ev e)
                (Event.val e).

(** A small object model with the two kinds of object that the built-in
    ones lack: [SArray], whose [==] returns the array itself and not a
    boolean, and [SBroken], whose [==] raises.  Nothing in it is
    callable. *)
Inductive sample : Type :=
| SAny
| STrue
| SFalse
| SInt (n : Z)
| SArray
| SBroken.

Definition sample_eq (a b : sample) : sum string sample :=
  match a, b with
  | SBroken, _ | _, SBroken => inl "RuntimeError"
  | SArray, _ | _, SArray => inr SArray
  | SAny, SAny | STrue, STrue | SFalse, SFalse => inr STrue
  | SInt x, SInt y => inr (if x =? y then STrue else SFalse)
  | _, _ => inr SFalse
  end.

#[export] Instance sample_objects : Objects sample string.
Proof.
  refine {| obj_Any := SAny;
            obj_True := STrue;
            obj_False := SFalse;
            obj_is_Any := fun x => match x with SAny => true | _ => false end;
            obj_eq := sample_eq;
            obj_bool := fun x => match x with
                                 | SFalse => inr false
                                 | SInt n => inr (negb (n =? 0))
                                 | _ => inr true
                                 end;
            obj_callable := fun _ => false;
            obj_call := fun _ _ => inl "TypeError" |}.
  - intros x. destruct x; simpl; split; intros; done.
  - reflexivity.
  - reflexivity.
Defined.

(** * Properties *)

(** ** Tuples and dictionaries *)

Lemma tuple_item_in_range (t : list value) (i : Z) :
  0 <= i < Z.of_nat (length t) ->
  exists v, t !! Z.to_nat i = Some v /\ tuple_item t i = Ok v.
Proof.
  intros Hi. unfold tuple_item.
  destruct (i <? 0) eqn:Hneg; [lia|].
  destruct ((i <? 0) || (Z.of_nat (length t) <=? i)) eqn:Hout; [lia|].
  destruct (lookup_lt_is_Some_2 t (Z.to_nat i)) as [v Hv]; [lia|].
  exists v. by rewrite Hv.
Qed.

Lemma tuple_item_from_end (t : list value) (i : Z) :
  - Z.of_nat (length t) <= i < 0 ->
  tuple_item t i = tuple_item t (i + Z.of_nat (length t)).
Proof.
  intros Hi. unfold tuple_item. cbv zeta.
  replace (i <? 0) with true by lia.
  replace (i + Z.of_nat (length t) <? 0) with false by lia.
  replace (Z.of_nat (length t) <=? i + Z.of_nat (length t)) with false by lia.
  simpl.
  destruct (lookup_lt_is_Some_2 t (Z.to_nat (i + Z.of_nat (length t))))
    as [v Hv]; [lia|].
  rewrite Hv.
  by destruct (i + Z.of_nat (length t) <? 0) eqn:Hneg; [lia|].
Qed.

Lemma index_error_for_kind (i : Z) : kind (index_error_for i) = IndexError.
Proof. unfold index_error_for. by destruct (_ || _). Qed.

Lemma tuple_item_out_of_range (t : list value) (i : Z) :
  i < - Z.of_nat (length t) \/ Z.of_nat (length t) <= i ->
  tuple_item t i = Raise (index_error_for i).
Proof.
  intros Hi. unfold tuple_item.
  destruct (i <? 0) eqn:Hneg.
  - destruct ((i + Z.of_nat (length t) <? 0)
              || (Z.of_nat (length t) <=? i + Z.of_nat (length t))) eqn:Hout;
      [done | lia].
  - destruct ((i <? 0) || (Z.of_nat (length t) <=? i)) eqn:Hout; [done | lia].
Qed.

Lemma enumerate_from_snoc {A} (i : Z) (l : list A) (x : A) :
  enumerate_from i (l ++ [x])
  = enumerate_from i l ++ [(i + Z.of_nat (length l), x)].
Proof.
  revert i. induction l as [|y l IH]; intros i; simpl.
  - by rewrite Z.add_0_r.
  - rewrite IH. replace (i + 1 + Z.of_nat (length l)) with (i + Z.of_nat (S (length l))) by lia. done.
Qed.

Lemma dict_snoc `{Countable K} {V} (pairs : list (K * V)) (k : K) (v : V) :
  dict (pairs ++ [(k, v)]) = <[k := v]> (dict pairs).
Proof. unfold dict. by rewrite fold_left_app. Qed.

(** ** The name-to-index mapping of a header *)

Lemma names_to_idxs_snoc (names : list string) (x : string) :
  Header.names_to_idxs (Header.__init__ (names ++ [x]))
  = <[x := Z.of_nat (length names)]>
      (Header.names_to_idxs (Header.__init__ names)).
Proof.
  simpl. unfold enumerate. rewrite enumerate_from_snoc, map_app. simpl.
  by rewrite dict_snoc.
Qed.

(** Later entries overwrite earlier ones: a name is mapped to the last
    position at which it occurs. *)
Lemma names_to_idxs_last (names : list string) (name : string) (j : nat) :
  names !! j = Some name ->
  (forall j', (j < j')%nat -> names !! j' <> Some name) ->
  Header.names_to_idxs (Header.__init__ names) !! name = Some (Z.of_nat j).
Proof.
  revert j. induction names as [|x names IH] using rev_ind; intros j Hj Hlast.
  - done.
  - rewrite names_to_idxs_snoc.
    destruct (decide (j = length names)) as [->|Hne].
    + rewrite list_lookup_middle in Hj by done.
      injection Hj as ->. by rewrite lookup_insert_eq.
    + assert (j < length names)%nat as Hlt.
      { apply lookup_lt_Some in Hj. rewrite length_app in Hj. simpl in Hj. lia. }
      rewrite lookup_app_l in Hj by done.
      assert (x <> name) as Hx.
      { intros ->. apply (Hlast (length names) Hlt).
        by rewrite list_lookup_middle. }
      rewrite lookup_insert_ne by done.
      apply IH; [done|].
      intros j' Hj' Hin. apply (Hlast j' Hj').
      rewrite lookup_app_l; [done|]. by apply lookup_lt_Some in Hin.
Qed.

Lemma names_to_idxs_absent (names : list string) (name : string) :
  name ∉ names ->
  Header.names_to_idxs (Header.__init__ names) !! name = None.
Proof.
  induction names as [|x names IH] using rev_ind; intros Hnot.
  - done.
  - rewrite names_to_idxs_snoc.
    rewrite lookup_insert_ne.
    + apply IH. intros Hin. apply Hnot, elem_of_app. by left.
    + intros ->. apply Hnot, elem_of_app. right. by apply list_elem_of_singleton.
Qed.

(** Every name of the list has a last position. *)
Lemma last_position (names : list string) (name : string) :
  name ∈ names ->
  exists j, names !! j = Some name
            /\ forall j', names !! j' = Some name -> (j' <= j)%nat.
Proof.
  induction names as [|x names IH] using rev_ind; intros Hin.
  - by apply elem_of_nil in Hin.
  - destruct (decide (x = name)) as [->|Hne].
    + exists (length names). split; [by rewrite list_lookup_middle|].
      intros j' Hj'. apply lookup_lt_Some in Hj'.
      rewrite length_app in Hj'. simpl in Hj'. lia.
    + destruct IH as (j & Hj & Hmax).
      { apply elem_of_app in Hin as [Hin|Hin]; [done|].
        apply list_elem_of_singleton in Hin. congruence. }
      exists j. split.
      * rewrite lookup_app_l; [done|]. by apply lookup_lt_Some in Hj.
      * intros j' Hj'.
        destruct (decide (j' < length names)%nat) as [Hlt|Hge].
        -- rewrite lookup_app_l in Hj' by done. by apply Hmax.
        -- apply lookup_lt_Some in Hj' as Hlen.
           rewrite length_app in Hlen. simpl in Hlen.
           assert (j' = length names) as -> by lia.
           rewrite list_lookup_middle in Hj' by done. congruence.
Qed.

Lemma name_of_in_range (names : list string) (i : Z) :
  0 <= i < Z.of_nat (length names) ->
  exists name, names !! Z.to_nat i = Some name
               /\ Header.name_of (Header.__init__ names) (VInt i)
                  = Ok (VStr name).
Proof.
  intros Hi. unfold Header.name_of. simpl.
  destruct (tuple_item_in_range (map VStr names) i) as (v & Hv & Hitem).
  { by rewrite length_map. }
  rewrite list_lookup_fmap in Hv.
  destruct (names !! Z.to_nat i) as [name|] eqn:Hname; [|done].
  injection Hv as <-. by exists name.
Qed.

(** ** Header *)

(** C3. For a header built from distinct names, looking up the name found
    at a valid index gives the index back, through [__getitem__] and
    through [index_of]; and the name found at the index of a name of the
    header is that name. *)
Theorem Header_roundtrip (names : list string) :
  NoDup names ->
  let h := Header.__init__ names in
  (forall i, 0 <= i < Header.__len__ h ->
     exists name,
       Header.name_of h (VInt i) = Ok (VStr name)
       /\ Header.__getitem__ h (VStr name) = Ok (VInt i)
       /\ Header.index_of h name = Ok i)
  /\ (forall name, name ∈ names ->
        exists i,
          Header.index_of h name = Ok i
          /\ Header.name_of h (VInt i) = Ok (VStr name)).
Proof.
  intros Hnodup h.
  assert (forall (j : nat) name, names !! j = Some name ->
            Header.names_to_idxs h !! name = Some (Z.of_nat j)) as Hidx.
  { intros j name Hj. apply names_to_idxs_last; [done|].
    intros j' Hlt Hj'.
    pose proof (NoDup_lookup _ _ _ _ Hnodup Hj Hj'). lia. }
  split.
  - intros i Hi. unfold Header.__len__ in Hi. simpl in Hi.
    destruct (name_of_in_range names i Hi) as (name & Hname & Hof).
    exists name. apply Hidx in Hname.
    rewrite Z2Nat.id in Hname by lia.
    split; [done|].
    unfold Header.__getitem__, Header.index_of. simpl isinstance_int.
    fold h. cbv iota. by rewrite Hname.
  - intros name Hin.
    apply list_elem_of_lookup_1 in Hin as [j Hj].
    exists (Z.of_nat j). split.
    + unfold Header.index_of. fold h. by rewrite (Hidx j name Hj).
    + destruct (name_of_in_range names (Z.of_nat j)) as (name' & Hname' & Hof).
      { apply lookup_lt_Some in Hj. lia. }
      rewrite Nat2Z.id, Hj in Hname'. by injection Hname' as <-.
Qed.

Lemma Header_roundtrip_witness :
  NoDup _EVENT_FIELD_NAMES
  /\ exists name,
       Header.name_of (Header.__init__ _EVENT_FIELD_NAMES) (VInt 3)
       = Ok (VStr name)
       /\ Header.__getitem__ (Header.__init__ _EVENT_FIELD_NAMES) (VStr name)
          = Ok (VInt 3)
       /\ Header.index_of (Header.__init__ _EVENT_FIELD_NAMES) name = Ok 3.
Proof.
  assert (NoDup _EVENT_FIELD_NAMES) as Hnodup.
  { apply (bool_decide_unpack _). vm_compute. exact I. }
  split; [exact Hnodup|].
  destruct (Header_roundtrip _EVENT_FIELD_NAMES Hnodup) as [Hfwd _].
  apply (Hfwd 3). unfold Header.__len__. simpl. lia.
Defined.

(** C4. [__getitem__] of a header of length N: an integer key (a [bool]
    is one) is returned as it is exactly when it lies in [0, N) and raises
    IndexError otherwise, so N and -1 raise IndexError; a string key gives
    the index the mapping holds for it, which exists exactly for the names
    of the header, and raises KeyError when there is none; a key of any
    other type raises KeyError. *)
Theorem Header_getitem_cases (names : list string) :
  let h := Header.__init__ names in
  let N := Header.__len__ h in
  (forall key, isinstance_int key = true ->
     (0 <= int_value key < N -> Header.__getitem__ h key = Ok key)
     /\ (~ 0 <= int_value key < N ->
         fails_with IndexError (Header.__getitem__ h key)))
  /\ fails_with IndexError (Header.__getitem__ h (VInt N))
  /\ fails_with IndexError (Header.__getitem__ h (VInt (-1)))
  /\ (forall name index, Header.names_to_idxs h !! name = Some index ->
        Header.__getitem__ h (VStr name) = Ok (VInt index))
  /\ (forall name, Header.names_to_idxs h !! name = None ->
        fails_with KeyError (Header.__getitem__ h (VStr name)))
  /\ (forall name, name ∈ names <->
        exists index, Header.__getitem__ h (VStr name) = Ok (VInt index))
  /\ (forall key, isinstance_int key = false -> isinstance_str key = false ->
        fails_with KeyError (Header.__getitem__ h key)).
Proof.
  intros h N.
  assert (forall key, isinstance_int key = true ->
     (0 <= int_value key < N -> Header.__getitem__ h key = Ok key)
     /\ (~ 0 <= int_value key < N ->
         fails_with IndexError (Header.__getitem__ h key))) as Hint.
  { intros key Hkey. unfold Header.__getitem__. rewrite Hkey.
    fold (Header.__len__ h). fold N.
    destruct ((int_value key <? 0) || (N <=? int_value key)) eqn:Hout.
    - split; [lia | done].
    - split; [done | lia]. }
  split; [exact Hint|].
  split; [apply (Hint (VInt N)); [done | simpl; lia]|].
  split; [apply (Hint (VInt (-1))); [done | simpl; lia]|].
  assert (forall name index, Header.names_to_idxs h !! name = Some index ->
            Header.__getitem__ h (VStr name) = Ok (VInt index)) as Hsome.
  { intros name index Hlook. unfold Header.__getitem__. simpl isinstance_int.
    cbv iota. by rewrite Hlook. }
  split; [exact Hsome|].
  assert (forall name, Header.names_to_idxs h !! name = None ->
            fails_with KeyError (Header.__getitem__ h (VStr name))) as Hnone.
  { intros name Hlook. unfold Header.__getitem__. simpl isinstance_int.
    cbv iota. by rewrite Hlook. }
  split; [exact Hnone|].
  split.
  - intros name. split.
    + intros Hin. destruct (last_position names name Hin) as (j & Hj & Hmax).
      exists (Z.of_nat j). apply Hsome, names_to_idxs_last; [done|].
      intros j' Hlt Hj'. apply Hmax in Hj'. lia.
    + intros [index Hget].
      destruct (decide (name ∈ names)) as [Hin|Hnot]; [done|].
      apply names_to_idxs_absent, Hnone in Hnot. fold h in Hnot.
      by rewrite Hget in Hnot.
  - intros key Hint' Hstr. unfold Header.__getitem__. rewrite Hint'.
    by destruct key.
Qed.

Lemma Header_getitem_cases_witness :
  let h := Header.__init__ _EVENT_FIELD_NAMES in
  Header.__getitem__ h (VInt 4) = Ok (VInt 4)
  /\ fails_with IndexError (Header.__getitem__ h (VInt 5))
  /\ Header.__getitem__ h (VStr "dura") = Ok (VInt 2)
  /\ fails_with KeyError (Header.__getitem__ h (VStr "nonexistent"))
  /\ fails_with KeyError (Header.__getitem__ h VNone).
Proof.
  intros h.
  destruct (Header_getitem_cases _EVENT_FIELD_NAMES)
    as (Hint & _ & _ & Hsome & Hnone & _ & Hother).
  split; [apply (Hint (VInt 4)); [reflexivity | vm_compute; by split]|].
  split; [apply (Hint (VInt 5)); [reflexivity | vm_compute; by intros [_ ?]]|].
  split; [apply (Hsome "dura" 2); reflexivity|].
  split; [apply (Hnone "nonexistent"); reflexivity|].
  apply (Hother VNone); reflexivity.
Defined.

(** C5. [name_of] hands the index to the tuple of names: an index in
    [-N, 0) counts from the end and returns a name, where [__getitem__] of
    the same header raises IndexError; only an index below -N or from N on
    raises IndexError. *)
Theorem Header_name_of_negative_index (names : list string) (i : Z) :
  let h := Header.__init__ names in
  let N := Header.__len__ h in
  (- N <= i < 0 ->
     (exists name, names !! Z.to_nat (i + N) = Some name
                   /\ Header.name_of h (VInt i) = Ok (VStr name))
     /\ fails_with IndexError (Header.__getitem__ h (VInt i)))
  /\ (i < - N \/ N <= i -> fails_with IndexError (Header.name_of h (VInt i))).
Proof.
  intros h N. unfold Header.name_of. simpl. split.
  - intros Hi. split.
    + rewrite tuple_item_from_end by (rewrite length_map; exact Hi).
      rewrite length_map.
      destruct (name_of_in_range names (i + N)) as (name & Hname & Hof).
      { unfold N, Header.__len__. simpl. unfold N, Header.__len__ in Hi.
        simpl in Hi. lia. }
      exists name. split; [done|]. exact Hof.
    + unfold Header.__getitem__. simpl.
      destruct (i <? 0) eqn:Hneg; [done | lia].
  - intros Hi. rewrite tuple_item_out_of_range; [apply index_error_for_kind|].
    by rewrite length_map.
Qed.

Lemma Header_name_of_negative_index_witness :
  (exists name, _EVENT_FIELD_NAMES !! 4%nat = Some name
     /\ Header.name_of (Header.__init__ _EVENT_FIELD_NAMES) (VInt (-1))
        = Ok (VStr name))
  /\ fails_with IndexError
       (Header.__getitem__ (Header.__init__ _EVENT_FIELD_NAMES) (VInt (-1))).
Proof.
  apply (Header_name_of_negative_index _EVENT_FIELD_NAMES (-1)).
  vm_compute. split; congruence.
Defined.

(** C8. A header is built from any list of names, repeated or not: every
    name of the list is mapped to the last index at which it occurs, and
    [name_of] still returns the name at each valid position. *)
Theorem Header_duplicate_names (names : list string) :
  let h := Header.__init__ names in
  (forall name, name ∈ names ->
     exists j : nat,
       Header.names_to_idxs h !! name = Some (Z.of_nat j)
       /\ Header.index_of h name = Ok (Z.of_nat j)
       /\ names !! j = Some name
       /\ forall j', names !! j' = Some name -> (j' <= j)%nat)
  /\ (forall i : nat, (i < length names)%nat ->
        exists name,
          names !! i = Some name
          /\ Header.name_of h (VInt (Z.of_nat i)) = Ok (VStr name)).
Proof.
  intros h. split.
  - intros name Hin.
    destruct (last_position names name Hin) as (j & Hj & Hmax).
    assert (Header.names_to_idxs h !! name = Some (Z.of_nat j)) as Hlook.
    { apply names_to_idxs_last; [done|].
      intros j' Hlt Hj'. apply Hmax in Hj'. lia. }
    exists j. split; [done|]. split; [|by split].
    unfold Header.index_of. by rewrite Hlook.
  - intros i Hi.
    destruct (name_of_in_range names (Z.of_nat i)) as (name & Hname & Hof);
      [lia|].
    rewrite Nat2Z.id in Hname. by exists name.
Qed.

Lemma Header_duplicate_names_witness :
  let names := ["a"; "b"; "a"] in
  "a" ∈ names
  /\ Header.names_to_idxs (Header.__init__ names) !! "a" = Some 2
  /\ Header.name_of (Header.__init__ names) (VInt 0) = Ok (VStr "a").
Proof.
  intros names.
  assert ("a" ∈ names) as Hin by apply list_elem_of_here.
  split; [exact Hin|].
  destruct (Header_duplicate_names names) as [Hlast Hpos].
  destruct (Hlast "a" Hin) as (j & Hlook & _ & Hj & Hmax).
  destruct (Hpos 0%nat) as (name & Hname & Hof); [simpl; lia|].
  split.
  - rewrite Hlook. f_equal.
    assert (2 <= j)%nat by (apply Hmax; reflexivity).
    apply lookup_lt_Some in Hj. simpl in Hj. lia.
  - change (VInt 0) with (VInt (Z.of_nat 0)). rewrite Hof.
    simpl in Hname. by injection Hname as <-.
Defined.

(** ** Event access *)

Lemma Event_astuple_length (e : Event.t) : length (Event.astuple e) = 5%nat.
Proof. reflexivity. Qed.

Lemma Event_getitem_int_key (e : Event.t) (i : Z) :
  Event.__getitem__ e (VInt i) = tuple_item (Event.astuple e) i.
Proof. reflexivity. Qed.

(** The attribute of each field is the field. *)
Lemma Event_attribute_fields (e : Event.t) :
  Event.attribute e "seq" = Some (Event.seq e)
  /\ Event.attribute e "time" = Some (Event.time e)
  /\ Event.attribute e "dura" = Some (Event.dura e)
  /\ Event.attribute e "ev" = Some (Event.ev e)
  /\ Event.attribute e "val" = Some (Event.val e).
Proof. repeat split. Qed.

(** C6, as stated, fails: -1 lies outside [0, 5), and indexing an event
    with -1 returns its last field instead of raising IndexError. *)
Lemma Event_getitem_negative_counterexample :
  let e := Event.__new__ None None None None (Some (VInt 120)) in
  ~ (0 <= -1 < 5)
  /\ Event.__getitem__ e (VInt (-1)) = Ok (VInt 120)
  /\ ~ fails_with IndexError (Event.__getitem__ e (VInt (-1))).
Proof.
  intros e. split; [lia|]. split; [reflexivity|]. simpl. tauto.
Qed.

(** C6, amended.  Indexing an event with an integer is native tuple
    indexing: for i in [0, 5) it returns the i-th field of
    (seq, time, dura, ev, val); for i in [-5, 0) it returns the field at
    position i + 5; for i < -5 or i >= 5 it raises IndexError. *)
Theorem Event_getitem_int (e : Event.t) (i : Z) :
  (0 <= i < 5 ->
     exists v, Event.astuple e !! Z.to_nat i = Some v
               /\ Event.__getitem__ e (VInt i) = Ok v)
  /\ (-5 <= i < 0 ->
        exists v, Event.astuple e !! Z.to_nat (i + 5) = Some v
                  /\ Event.__getitem__ e (VInt i) = Ok v)
  /\ (i < -5 \/ 5 <= i ->
        fails_with IndexError (Event.__getitem__ e (VInt i))).
Proof.
  rewrite Event_getitem_int_key. repeat split.
  - intros Hi. apply tuple_item_in_range. rewrite Event_astuple_length. lia.
  - intros Hi. rewrite tuple_item_from_end by (rewrite Event_astuple_length; lia).
    rewrite Event_astuple_length.
    apply tuple_item_in_range. rewrite Event_astuple_length. lia.
  - intros Hi. rewrite tuple_item_out_of_range; [apply index_error_for_kind|].
    rewrite Event_astuple_length. lia.
Qed.

Lemma Event_getitem_int_witness :
  let e := Event.__new__ (Some (VInt 1)) (Some (VInt 3)) None None
             (Some (VInt 120)) in
  (exists v, Event.astuple e !! 1%nat = Some v
             /\ Event.__getitem__ e (VInt 1) = Ok v)
  /\ (exists v, Event.astuple e !! 4%nat = Some v
                /\ Event.__getitem__ e (VInt (-1)) = Ok v)
  /\ fails_with IndexError (Event.__getitem__ e (VInt 5))
  /\ fails_with IndexError (Event.__getitem__ e (VInt (-6))).
Proof.
  intros e.
  split; [apply (Event_getitem_int e 1); lia|].
  split; [apply (Event_getitem_int e (-1)); lia|].
  split; [apply (Event_getitem_int e 5); lia|].
  apply (Event_getitem_int e (-6)); lia.
Defined.

(** C7. For each of the five field names, access by name, access by
    attribute, and access by the index the shared header gives for the name
    return the same value. *)
Theorem Event_field_access_agrees (e : Event.t) (f : string) :
  f ∈ _EVENT_FIELD_NAMES ->
  exists v index,
    Event.__getitem__ e (VStr f) = Ok v
    /\ Event.attribute e f = Some v
    /\ Header.index_of (Event.header e) f = Ok index
    /\ Event.__getitem__ e (VInt index) = Ok v.
Proof.
  intros Hin. unfold _EVENT_FIELD_NAMES in Hin.
  repeat (apply elem_of_cons in Hin as [->|Hin]).
  - exists (Event.seq e), 0. by repeat split.
  - exists (Event.time e), 1. by repeat split.
  - exists (Event.dura e), 2. by repeat split.
  - exists (Event.ev e), 3. by repeat split.
  - exists (Event.val e), 4. by repeat split.
  - by apply elem_of_nil in Hin.
Qed.

Lemma Event_field_access_agrees_witness :
  let e := Event.__new__ (Some (VInt 1)) None None (Some (VStr "bpSystolic"))
             (Some (VInt 120)) in
  "ev" ∈ _EVENT_FIELD_NAMES
  /\ exists v index,
       Event.__getitem__ e (VStr "ev") = Ok v
       /\ Event.attribute e "ev" = Some v
       /\ Header.index_of (Event.header e) "ev" = Ok index
       /\ Event.__getitem__ e (VInt index) = Ok v.
Proof.
  intros e.
  assert ("ev" ∈ _EVENT_FIELD_NAMES) as Hin.
  { unfold _EVENT_FIELD_NAMES. do 3 apply list_elem_of_further.
    apply list_elem_of_here. }
  split; [exact Hin|]. exact (Event_field_access_agrees e "ev" Hin).
Defined.

(** ** Partial matching *)

Lemma is_Any_true (c : value) : is_Any c = true <-> c = Any.
Proof. destruct c; simpl; split; intros; done. Qed.

Lemma is_Any_false (c : value) : is_Any c = false <-> c <> Any.
Proof. destruct c; simpl; split; intros; done. Qed.

Lemma py_and_outcome (a b : M value) :
  outcome (py_and a b)
  = match outcome a with
    | Ok x => if truthy x then outcome b else Ok x
    | Raise e => Raise e
    end.
Proof.
  destruct a as [[x|e] calls]; simpl; [|done].
  destruct (truthy x); simpl; [|done]. by destruct b.
Qed.

Lemma py_and_calls (a b : M value) :
  calls_made (py_and a b)
  = match outcome a with
    | Ok x => if truthy x then calls_made a ++ calls_made b else calls_made a
    | Raise e => calls_made a
    end.
Proof.
  destruct a as [[x|e] calls]; simpl; [|done].
  destruct (truthy x); simpl; [by destruct b|]. by rewrite app_nil_r.
Qed.

Lemma py_and_truthy (a b : M value) :
  returns_truthy (py_and a b) <-> returns_truthy a /\ returns_truthy b.
Proof.
  unfold returns_truthy. rewrite py_and_outcome.
  destruct (outcome a) as [x|e].
  - destruct (truthy x) eqn:Hx.
    + split; [intros Hb; split; [by exists x | done] | by intros [_ Hb]].
    + split.
      * intros (r & Hr & Ht). injection Hr as <-. congruence.
      * intros [(r & Hr & Ht) _]. injection Hr as <-. congruence.
  - split; [by intros (r & Hr & _) | by intros [(r & Hr & _) _]].
Qed.

Section MatchingProperties.

Variable code : nat -> value -> result value.

(** The three probes in the order the code makes them. *)
Lemma valuepred_unfold (c v : value) :
  _valuepred_matches_value code c v
  = if is_Any c then ret (VBool true)
    else if py_eq c v then ret (VBool true)
    else match c with
         | VFunc f => (code f v, [(f, v)])
         | _ => ret (VBool false)
         end.
Proof.
  unfold _valuepred_matches_value.
  destruct (is_Any c) eqn:Hany; [done|].
  destruct (py_eq c v) eqn:Heq; [done|].
  by destruct c.
Qed.

Lemma valuepred_truthy (c v : value) :
  returns_truthy (_valuepred_matches_value code c v)
  <-> criterion_satisfied code c v.
Proof.
  rewrite valuepred_unfold. unfold returns_truthy, criterion_satisfied.
  destruct (is_Any c) eqn:Hany.
  { apply is_Any_true in Hany. split; [by left|]. intros _. by exists (VBool true). }
  apply is_Any_false in Hany.
  destruct (py_eq c v) eqn:Heq.
  { split; [by right; left|]. intros _. by exists (VBool true). }
  split.
  - intros (r & Hr & Ht). destruct c; simpl in Hr;
      try (injection Hr as <-; discriminate).
    right; right. by exists f, r.
  - intros [?|[?|(f & r & -> & Hr & Ht)]]; [done..|].
    exists r. by split.
Qed.

(** What a single check can return. *)
Lemma valuepred_outcome_range (c v r : value) :
  outcome (_valuepred_matches_value code c v) = Ok r ->
  is_bool r = true \/ exists f, c = VFunc f /\ code f v = Ok r.
Proof.
  rewrite valuepred_unfold.
  destruct (is_Any c); [intros [= <-]; by left|].
  destruct (py_eq c v); [intros [= <-]; by left|].
  destruct c; simpl; try (intros [= <-]; by left).
  intros Hr. right. by exists f.
Qed.

(** Whom a single check can call. *)
Lemma valuepred_calls_range (c v : value) (call : invocation) :
  call ∈ calls_made (_valuepred_matches_value code c v) ->
  exists f, c = VFunc f /\ call = (f, v) /\ py_eq c v = false.
Proof.
  rewrite valuepred_unfold.
  destruct (is_Any c); [by intros ?%elem_of_nil|].
  destruct (py_eq c v); [by intros ?%elem_of_nil|].
  destruct c; simpl; try by intros ?%elem_of_nil.
  intros ->%list_elem_of_singleton. by exists f.
Qed.



Lemma py_and_outcome_range (a b : M value) (r : value) :
  outcome (py_and a b) = Ok r -> outcome a = Ok r \/ outcome b = Ok r.
Proof.
  rewrite py_and_outcome. destruct (outcome a) as [x|e]; [|done].
  destruct (truthy x); [by right | by left].
Qed.

Lemma py_and_calls_range (a b : M value) (call : invocation) :
  call ∈ calls_made (py_and a b) ->
  call ∈ calls_made a \/ call ∈ calls_made b.
Proof.
  rewrite py_and_calls. destruct (outcome a) as [x|e]; [|by left].
  destruct (truthy x); [|by left]. by intros ?%elem_of_app.
Qed.

Lemma matches_truthy (e : Event.t) (seq time dura ev val : value) :
  returns_truthy (Event.matches code e seq time dura ev val)
  <-> criterion_satisfied code seq (Event.seq e)
      /\ criterion_satisfied code time (Event.time e)
      /\ criterion_satisfied code dura (Event.dura e)
      /\ criterion_satisfied code ev (Event.ev e)
      /\ criterion_satisfied code val (Event.val e).
Proof.
  unfold Event.matches. rewrite !py_and_truthy, !valuepred_truthy. tauto.
Qed.


End MatchingProperties.

Lemma matches_calls_range (code : nat -> value -> result value)
    (e : Event.t) (seq time dura ev val : value) (call : invocation) :
  call ∈ calls_made (Event.matches code e seq time dura ev val) ->
  exists f c v,
    (c, v) ∈ criteria_in_order e seq time dura ev val
    /\ call = (f, v) /\ c = VFunc f /\ py_eq c v = false.
Proof.
  unfold Event.matches, criteria_in_order. intros Hc.
  repeat (apply py_and_calls_range in Hc as [Hc|Hc]);
    (apply valuepred_calls_range in Hc as (f & -> & -> & Heq);
     eexists f, _, _; split; [|by repeat split]);
    set_solver.
Qed.

(** The match examples of the specification, with the two lambdas
    [v > 100] and [v > 200] as function objects 0 and 1. *)
Example matches_examples :
  let code := fun (f : nat) (v : value) =>
    if isinstance_int v
    then Ok (VBool ((if Nat.eqb f 0 then 100 else 200) <? int_value v))
    else Raise (Exn TypeError (VStr "'>' not supported")) in
  let e := Event.__new__ (Some (VInt 1)) (Some (VStr "2015-04-25T11:39")) None
             (Some (VStr "bpSystolic")) (Some (VInt 120)) in
  Event.matches code e Any Any Any (VStr "bpSystolic") (VInt 120)
  = (Ok (VBool true), [])
  /\ Event.matches code e Any Any Any (VStr "bpDiastolic") Any
     = (Ok (VBool false), [])
  /\ Event.matches code e Any Any Any Any (VFunc 0)
     = (Ok (VBool true), [(0%nat, VInt 120)])
  /\ Event.matches code e Any Any Any Any (VFunc 1)
     = (Ok (VBool false), [(1%nat, VInt 120)]).
Proof. repeat split. Qed.




(** C9, as stated, fails.  The criterion for [seq] is a predicate that
    returns the integer 1: the match returns that 1, which is not a
    boolean. *)
Lemma matches_non_boolean_counterexample :
  let code := fun (_ : nat) (_ : value) => Ok (VInt 1) in
  let e := Event.__new__ None None None None None in
  outcome (Event.matches code e (VFunc 0) Any Any Any Any) = Ok (VInt 1)
  /\ ~ exists b,
         outcome (Event.matches code e (VFunc 0) Any Any Any Any)
         = Ok (VBool b).
Proof.
  intros code e. split; [reflexivity|]. intros [b Hb]. discriminate Hb.
Qed.

(** C10. A criterion is classified by probing, in this order: the wildcard
    sentinel satisfies without a call; any other criterion equal to the
    field value satisfies without a call, a callable one included; a
    callable criterion unequal to the field value is called once on it and
    what the call returns is the result; anything else does not satisfy.
    So a match is truthy iff every criterion passes these probes, and the
    only calls it makes are to callable criteria unequal to their fields. *)
Theorem valuepred_probing_order
    (code : nat -> value -> result value) (c v : value) :
  (c = Any -> _valuepred_matches_value code c v = (Ok (VBool true), []))
  /\ (c <> Any -> py_eq c v = true ->
      _valuepred_matches_value code c v = (Ok (VBool true), []))
  /\ (forall f, c = VFunc f -> py_eq c v = false ->
        _valuepred_matches_value code c v = (code f v, [(f, v)])
        /\ (returns_truthy (_valuepred_matches_value code c v)
            <-> exists r, code f v = Ok r /\ truthy r = true))
  /\ (c <> Any -> py_eq c v = false -> callable c = false ->
      _valuepred_matches_value code c v = (Ok (VBool false), []))
  /\ (forall (e : Event.t) (seq time dura ev val : value),
        (returns_truthy (Event.matches code e seq time dura ev val)
         <-> criterion_satisfied code seq (Event.seq e)
             /\ criterion_satisfied code time (Event.time e)
             /\ criterion_satisfied code dura (Event.dura e)
             /\ criterion_satisfied code ev (Event.ev e)
             /\ criterion_satisfied code val (Event.val e))
        /\ forall call,
             call ∈ calls_made (Event.matches code e seq time dura ev val) ->
             exists f c' v',
               (c', v') ∈ criteria_in_order e seq time dura ev val
               /\ call = (f, v') /\ c' = VFunc f /\ py_eq c' v' = false).
Proof.
  rewrite valuepred_unfold.
  split; [by intros ->|].
  split.
  { intros Hany%is_Any_false Heq. by rewrite Hany, Heq. }
  split.
  { intros f -> Heq. rewrite Heq. simpl. split; [done|].
    unfold returns_truthy. simpl. done. }
  split.
  { intros Hany%is_Any_false Heq Hcall. rewrite Hany, Heq. by destruct c. }
  intros e seq time dura ev val.
  split; [apply matches_truthy | apply matches_calls_range].
Qed.

Lemma valuepred_probing_order_witness :
  let code := fun (_ : nat) (_ : value) => Ok (VBool false) in
  _valuepred_matches_value code (VFunc 0) (VFunc 0) = (Ok (VBool true), [])
  /\ _valuepred_matches_value code (VFunc 0) (VInt 120)
     = (Ok (VBool false), [(0%nat, VInt 120)])
  /\ _valuepred_matches_value code (VInt 80) (VInt 120) = (Ok (VBool false), []).
Proof.
  intros code.
  destruct (valuepred_probing_order code (VFunc 0) (VFunc 0))
    as (_ & Hequal & _).
  destruct (valuepred_probing_order code (VFunc 0) (VInt 120))
    as (_ & _ & Hcalled & _).
  destruct (valuepred_probing_order code (VInt 80) (VInt 120))
    as (_ & _ & _ & Hplain & _).
  split; [apply Hequal; [discriminate | reflexivity]|].
  split; [apply (Hcalled 0%nat); reflexivity|].
  apply Hplain; [discriminate | reflexivity..].
Defined.

(** ** Sort keys *)

Section TupleOrderFacts.

Context {A : Type} (eqb ltb gtb : A -> A -> bool).

Hypothesis eqb_eq : forall x y, eqb x y = true <-> x = y.
Hypothesis one_of_three :
  forall x y, exactly_one (ltb x y) (eqb x y) (gtb x y) = true.
Hypothesis ltb_trans :
  forall x y z, ltb x y = true -> ltb y z = true -> ltb x z = true.
Hypothesis gtb_ltb : forall x y, gtb x y = ltb y x.

Lemma tuple_eqb_eq (a b : list A) : tuple_eqb eqb a b = true <-> a = b.
Proof.
  revert b. induction a as [|x xs IH]; intros [|y ys]; simpl; try done.
  rewrite andb_true_iff, eqb_eq, IH. split.
  - by intros [-> ->].
  - by intros [= -> ->].
Qed.

Lemma tuple_one_of_three (a b : list A) :
  exactly_one (tuple_ltb eqb ltb a b) (tuple_eqb eqb a b)
              (tuple_gtb eqb gtb a b) = true.
Proof.
  revert b. induction a as [|x xs IH]; intros [|y ys]; simpl; try done.
  pose proof (one_of_three x y) as Hxy.
  destruct (eqb x y); simpl; [apply IH|].
  by destruct (ltb x y), (gtb x y).
Qed.

Lemma ltb_not_both (x y : A) : ltb x y = true -> ltb y x = true -> False.
Proof.
  intros Hxy Hyx. pose proof (one_of_three x y) as H.
  rewrite gtb_ltb, Hxy, Hyx in H. by destruct (eqb x y).
Qed.

Lemma tuple_ltb_trans (a b c : list A) :
  tuple_ltb eqb ltb a b = true -> tuple_ltb eqb ltb b c = true ->
  tuple_ltb eqb ltb a c = true.
Proof.
  revert b c.
  induction a as [|x xs IH]; intros [|y ys] [|z zs]; simpl; try done.
  destruct (eqb x y) eqn:Hxy, (eqb y z) eqn:Hyz.
  - apply eqb_eq in Hxy as ->. rewrite Hyz. apply IH.
  - apply eqb_eq in Hxy as ->. by rewrite Hyz.
  - apply eqb_eq in Hyz as ->. by rewrite Hxy.
  - intros Hlt1 Hlt2. destruct (eqb x z) eqn:Hxz.
    + apply eqb_eq in Hxz as ->. destruct (ltb_not_both _ _ Hlt1 Hlt2).
    + by apply ltb_trans with y.
Qed.

Lemma tuple_gtb_ltb (a b : list A) :
  tuple_gtb eqb gtb a b = tuple_ltb eqb ltb b a.
Proof.
  revert b. induction a as [|x xs IH]; intros [|y ys]; simpl; try done.
  rewrite gtb_ltb, IH.
  destruct (eqb x y) eqn:Hxy.
  - apply eqb_eq in Hxy as ->.
    by rewrite (proj2 (eqb_eq y y) eq_refl).
  - destruct (eqb y x) eqn:Hyx; [|done].
    apply eqb_eq in Hyx as ->.
    by rewrite (proj2 (eqb_eq x x) eq_refl) in Hxy.
Qed.

End TupleOrderFacts.

Lemma Z_one_of_three (x y : Z) :
  exactly_one (x <? y) (x =? y) (x >? y) = true.
Proof.
  rewrite Z.gtb_ltb.
  destruct (Z.ltb_spec x y), (Z.eqb_spec x y), (Z.ltb_spec y x); simpl; lia.
Qed.

Lemma Z_ltb_trans (x y z : Z) :
  (x <? y) = true -> (y <? z) = true -> (x <? z) = true.
Proof. rewrite !Z.ltb_lt. lia. Qed.

Lemma canon_eqb_eq (a b : canon) : canon_eqb a b = true <-> a = b.
Proof. apply tuple_eqb_eq, Z.eqb_eq. Qed.

Lemma canon_one_of_three (a b : canon) :
  exactly_one (canon_ltb a b) (canon_eqb a b) (canon_gtb a b) = true.
Proof. apply tuple_one_of_three, Z_one_of_three. Qed.

Lemma canon_ltb_trans (a b c : canon) :
  canon_ltb a b = true -> canon_ltb b c = true -> canon_ltb a c = true.
Proof.
  apply (tuple_ltb_trans Z.eqb Z.ltb Z.gtb);
    [apply Z.eqb_eq | apply Z_one_of_three | apply Z_ltb_trans | apply Z.gtb_ltb].
Qed.

Lemma canon_gtb_ltb (a b : canon) : canon_gtb a b = canon_ltb b a.
Proof. apply tuple_gtb_ltb; [apply Z.eqb_eq | apply Z.gtb_ltb]. Qed.

Lemma key_eqb_eq (a b : list canon) : key_eqb a b = true <-> a = b.
Proof. apply tuple_eqb_eq, canon_eqb_eq. Qed.

Lemma key_one_of_three (a b : list canon) :
  exactly_one (key_ltb a b) (key_eqb a b) (key_gtb a b) = true.
Proof. apply tuple_one_of_three, canon_one_of_three. Qed.

Lemma key_ltb_trans (a b c : list canon) :
  key_ltb a b = true -> key_ltb b c = true -> key_ltb a c = true.
Proof.
  apply (tuple_ltb_trans canon_eqb canon_ltb canon_gtb);
    [apply canon_eqb_eq | apply canon_one_of_three | apply canon_ltb_trans
    | apply canon_gtb_ltb].
Qed.

(** C2. The sort keys of two events are related in exactly one of the
    three ways [<], [==], [>]; events with the same field tuple have equal
    keys; [<] on keys is transitive and decided by the first field, in the
    order seq, time, dura, ev, val, whose canonical values differ; and
    sorting [Event(seq=2,time=5), Event(seq=1,time=9), Event(seq=1,time=3)]
    by sort key gives
    [Event(seq=1,time=3), Event(seq=1,time=9), Event(seq=2,time=5)]. *)
Theorem sort_key_total_order :
  (forall a b : Event.t,
     exactly_one (key_ltb (Event.sort_key a) (Event.sort_key b))
                 (key_eqb (Event.sort_key a) (Event.sort_key b))
                 (key_gtb (Event.sort_key a) (Event.sort_key b)) = true)
  /\ (forall a b : Event.t,
        Event.astuple a = Event.astuple b ->
        Event.sort_key a = Event.sort_key b
        /\ key_eqb (Event.sort_key a) (Event.sort_key b) = true)
  /\ (forall a b c : Event.t,
        key_ltb (Event.sort_key a) (Event.sort_key b) = true ->
        key_ltb (Event.sort_key b) (Event.sort_key c) = true ->
        key_ltb (Event.sort_key a) (Event.sort_key c) = true)
  /\ (forall a b : Event.t,
        let differ (x y : value) := negb (canon_eqb (canonical x) (canonical y)) in
        let less (x y : value) := canon_ltb (canonical x) (canonical y) in
        key_ltb (Event.sort_key a) (Event.sort_key b)
        = if differ (Event.seq a) (Event.seq b)
          then less (Event.seq a) (Event.seq b)
          else if differ (Event.time a) (Event.time b)
          then less (Event.time a) (Event.time b)
          else if differ (Event.dura a) (Event.dura b)
          then less (Event.dura a) (Event.dura b)
          else if differ (Event.ev a) (Event.ev b)
          then less (Event.ev a) (Event.ev b)
          else if differ (Event.val a) (Event.val b)
          then less (Event.val a) (Event.val b)
          else false)
  /\ sorted
       [Event.__new__ (Some (VInt 2)) (Some (VInt 5)) None None None;
        Event.__new__ (Some (VInt 1)) (Some (VInt 9)) None None None;
        Event.__new__ (Some (VInt 1)) (Some (VInt 3)) None None None]
       Event.sort_key
     = [Event.__new__ (Some (VInt 1)) (Some (VInt 3)) None None None;
        Event.__new__ (Some (VInt 1)) (Some (VInt 9)) None None None;
        Event.__new__ (Some (VInt 2)) (Some (VInt 5)) None None None].
Proof.
  split; [intros a b; apply key_one_of_three|].
  split.
  { intros a b Htuple. unfold Event.sort_key. rewrite Htuple.
    split; [done | by apply key_eqb_eq]. }
  split; [intros a b c; apply key_ltb_trans|].
  split; [|reflexivity].
  intros a b differ less. unfold differ, less, Event.sort_key. simpl.
  repeat match goal with
         | |- context [canon_eqb ?x ?y] => destruct (canon_eqb x y); simpl
         end; reflexivity.
Qed.

Lemma sort_key_total_order_witness :
  let a := Event.__new__ (Some (VInt 1)) (Some (VInt 3)) None None None in
  let a' := Event.Build (VInt 1) (VInt 3) VNone VNone VNone in
  let c := Event.__new__ (Some (VInt 1)) (Some (VInt 9)) None None None in
  let d := Event.__new__ (Some (VInt 2)) (Some (VInt 5)) None None None in
  (Event.sort_key a = Event.sort_key a'
   /\ key_eqb (Event.sort_key a) (Event.sort_key a') = true)
  /\ key_ltb (Event.sort_key a) (Event.sort_key d) = true.
Proof.
  intros a a' c d.
  destruct sort_key_total_order as (_ & Hsame & Htrans & _).
  split; [apply (Hsame a a'); reflexivity|].
  apply (Htrans a c d); reflexivity.
Defined.

(** * Further properties of the code *)

(** ** Header: what the mapping holds *)

Lemma names_to_idxs_sound (names : list string) (name : string) (index : Z) :
  Header.names_to_idxs (Header.__init__ names) !! name = Some index ->
  exists j : nat, index = Z.of_nat j /\ names !! j = Some name.
Proof.
  induction names as [|x names IH] using rev_ind.
  - done.
  - rewrite names_to_idxs_snoc.
    destruct (decide (x = name)) as [->|Hne].
    + rewrite lookup_insert_eq. intros [= <-].
      exists (length names). split; [done|]. by rewrite list_lookup_middle.
    + rewrite lookup_insert_ne by done. intros Hlook.
      destruct (IH Hlook) as (j & -> & Hj).
      exists j. split; [done|].
      rewrite lookup_app_l; [done|]. by apply lookup_lt_Some in Hj.
Qed.

Lemma Header_index_of_defined_aux (names : list string) (name : string) :
  name ∈ names ->
  exists index,
    Header.index_of (Header.__init__ names) name = Ok index
    /\ 0 <= index < Z.of_nat (length names).
Proof.
  intros Hin. destruct (last_position names name Hin) as (j & Hj & Hmax).
  exists (Z.of_nat j). unfold Header.index_of.
  rewrite (names_to_idxs_last names name j); [|done|].
  - split; [done|]. apply lookup_lt_Some in Hj. lia.
  - intros j' Hlt Hj'. apply Hmax in Hj'. lia.
Qed.

(** Every entry of [names_to_idxs] is sound, repeated names or not: the
    index lies in [0, N), the name stands at that index, and [name_of]
    gives the name back. *)
Theorem Header_mapping_sound (names : list string) (name : string) (index : Z) :
  let h := Header.__init__ names in
  Header.names_to_idxs h !! name = Some index ->
  0 <= index < Header.__len__ h
  /\ Header.names h !! Z.to_nat index = Some name
  /\ Header.name_of h (VInt index) = Ok (VStr name).
Proof.
  intros h Hlook.
  destruct (names_to_idxs_sound names name index Hlook) as (j & -> & Hj).
  assert (0 <= Z.of_nat j < Z.of_nat (length names)) as Hrange.
  { apply lookup_lt_Some in Hj. lia. }
  split; [exact Hrange|].
  rewrite Nat2Z.id. split; [exact Hj|].
  destruct (name_of_in_range names (Z.of_nat j) Hrange) as (name' & Hname' & Hof).
  rewrite Nat2Z.id, Hj in Hname'. by injection Hname' as <-.
Qed.

Lemma Header_mapping_sound_witness :
  let h := Header.__init__ ["a"; "b"; "a"] in
  0 <= 2 < Header.__len__ h
  /\ Header.names h !! Z.to_nat 2 = Some "a"
  /\ Header.name_of h (VInt 2) = Ok (VStr "a").
Proof.
  intros h. apply (Header_mapping_sound ["a"; "b"; "a"] "a" 2). reflexivity.
Defined.

(** [index_of] succeeds exactly for the names the header was built from and
    raises KeyError carrying the name otherwise; [__getitem__] on the name
    as a string key gives the same index or the same KeyError. *)
Theorem Header_index_of_defined (names : list string) (name : string) :
  let h := Header.__init__ names in
  (name ∈ names <-> exists index, Header.index_of h name = Ok index)
  /\ (name ∉ names -> Header.index_of h name = Raise (Exn KeyError (VStr name)))
  /\ Header.__getitem__ h (VStr name)
     = rbind (Header.index_of h name) (fun index => Ok (VInt index)).
Proof.
  intros h. subst h. split; [|split].
  - split.
    + intros Hin. destruct (last_position names name Hin) as (j & Hj & Hmax).
      exists (Z.of_nat j). unfold Header.index_of.
      rewrite (names_to_idxs_last names name j); [done..|].
      intros j' Hlt Hj'. apply Hmax in Hj'. lia.
    + intros [index Hidx]. unfold Header.index_of in Hidx.
      destruct (Header.names_to_idxs (Header.__init__ names) !! name)
        as [i|] eqn:Hlook; [|done].
      destruct (names_to_idxs_sound names name i Hlook) as (j & _ & Hj).
      apply list_elem_of_lookup. by exists j.
  - intros Hnot. unfold Header.index_of.
    by rewrite (names_to_idxs_absent names name Hnot).
  - unfold Header.__getitem__, Header.index_of. simpl isinstance_int.
    cbv iota.
    by destruct (Header.names_to_idxs (Header.__init__ names) !! name).
Qed.

Lemma Header_index_of_defined_witness :
  Header.index_of (Header.__init__ _EVENT_FIELD_NAMES) "duration"
  = Raise (Exn KeyError (VStr "duration")).
Proof.
  apply (Header_index_of_defined _EVENT_FIELD_NAMES "duration").
  unfold _EVENT_FIELD_NAMES. intros Hin.
  repeat (apply elem_of_cons in Hin as [Hin|Hin]; [discriminate Hin|]).
  by apply elem_of_nil in Hin.
Defined.

(** A key that [__getitem__] resolves is resolved to a canonical index: an
    integer in [0, N) that resolves to itself and has a name; when the key
    was a name, that name. *)
Theorem Header_getitem_canonical (names : list string) (key k : value) :
  let h := Header.__init__ names in
  Header.__getitem__ h key = Ok k ->
  isinstance_int k = true
  /\ 0 <= int_value k < Header.__len__ h
  /\ Header.__getitem__ h k = Ok k
  /\ exists name,
       Header.name_of h k = Ok (VStr name)
       /\ forall s, key = VStr s -> name = s.
Proof.
  intros h Hget.
  assert (forall k', isinstance_int k' = true ->
            0 <= int_value k' < Header.__len__ h ->
            Header.__getitem__ h k' = Ok k') as Hself.
  { intros k' Hint Hrange. unfold Header.__getitem__. rewrite Hint.
    fold (Header.__len__ h).
    destruct ((int_value k' <? 0) || (Header.__len__ h <=? int_value k'))
      eqn:Hout; [lia | done]. }
  unfold Header.__getitem__ in Hget. fold (Header.__len__ h) in Hget.
  destruct (isinstance_int key) eqn:Hint.
  - destruct ((int_value key <? 0) || (Header.__len__ h <=? int_value key))
      eqn:Hout; [done|].
    injection Hget as <-.
    assert (0 <= int_value key < Header.__len__ h) as Hrange by lia.
    split; [done|]. split; [done|]. split; [by apply Hself|].
    destruct (name_of_in_range names (int_value key) Hrange)
      as (name & _ & Hof).
    exists name. split; [|by intros s ->].
    by destruct key.
  - destruct key as [| | |s| | | |]; try done.
    destruct (Header.names_to_idxs h !! s) as [index|] eqn:Hlook; [|done].
    injection Hget as <-.
    destruct (Header_mapping_sound names s index Hlook) as (Hrange & _ & Hof).
    split; [done|]. split; [done|]. split; [by apply Hself|].
    exists s. split; [done|]. by intros s' [= ->].
Qed.

Lemma Header_getitem_canonical_witness :
  let h := Header.__init__ ["a"; "b"; "a"] in
  Header.__getitem__ h (VInt 2) = Ok (VInt 2)
  /\ exists name,
       Header.name_of h (VInt 2) = Ok (VStr name)
       /\ forall s, VStr "a" = VStr s -> name = s.
Proof.
  intros h.
  destruct (Header_getitem_canonical ["a"; "b"; "a"] (VStr "a") (VInt 2))
    as (_ & _ & Hself & Hname); [reflexivity|].
  by split.
Defined.

(** The names the mapping knows are the names given, each once: the
    mapping has at most N entries, and exactly N when no name repeats. *)
Theorem Header_mapping_domain (names : list string) :
  let h := Header.__init__ names in
  dom (Header.names_to_idxs h) = list_to_set names
  /\ (size (Header.names_to_idxs h) <= length names)%nat
  /\ (NoDup names -> size (Header.names_to_idxs h) = length names).
Proof.
  intros h.
  assert (dom (Header.names_to_idxs h) = (list_to_set names : gset string))
    as Hdom.
  { subst h. induction names as [|x names IH] using rev_ind.
    - apply dom_empty_L.
    - rewrite names_to_idxs_snoc, dom_insert_L, IH, list_to_set_app_L.
      simpl. rewrite (right_id_L ∅ (∪)). apply (comm_L (∪)). }
  split; [exact Hdom|].
  rewrite <- size_dom, Hdom. split.
  - clear. induction names as [|x names IH].
    + by rewrite list_to_set_nil, size_empty.
    + rewrite list_to_set_cons, size_union_alt, size_singleton.
      assert (size (list_to_set names ∖ ({[x]} : gset string))
              <= size (list_to_set names : gset string))%nat as Hle.
      { apply subseteq_size. by apply subseteq_difference_l. }
      simpl. lia.
  - intros Hnodup. by apply size_list_to_set.
Qed.

Lemma Header_mapping_domain_witness :
  NoDup _EVENT_FIELD_NAMES
  /\ size (Header.names_to_idxs (Header.__init__ _EVENT_FIELD_NAMES))
     = length _EVENT_FIELD_NAMES.
Proof.
  assert (NoDup _EVENT_FIELD_NAMES) as Hnodup.
  { apply (bool_decide_unpack _). vm_compute. exact I. }
  split; [exact Hnodup|].
  by apply (Header_mapping_domain _EVENT_FIELD_NAMES).
Defined.

(** ** Event: keys of every kind *)

Lemma Event_header_names : Header.names Event._header = _EVENT_FIELD_NAMES.
Proof. reflexivity. Qed.

Lemma Event_item_in_range (e : Event.t) (i : Z) :
  -5 <= i < 5 -> exists v, tuple_item (Event.astuple e) i = Ok v.
Proof.
  intros Hi. destruct (decide (0 <= i)) as [Hpos|Hneg].
  - destruct (tuple_item_in_range (Event.astuple e) i) as (v & _ & Hv).
    { rewrite Event_astuple_length. lia. }
    by exists v.
  - rewrite tuple_item_from_end by (rewrite Event_astuple_length; lia).
    destruct (tuple_item_in_range (Event.astuple e)
                (i + Z.of_nat (length (Event.astuple e)))) as (v & _ & Hv).
    { rewrite Event_astuple_length. lia. }
    by exists v.
Qed.

(** Access by a string key is access by the index the shared header
    resolves the string to: it succeeds exactly for the five field names,
    and any other string raises KeyError carrying that string, never
    IndexError. *)
Theorem Event_getitem_by_name (e : Event.t) (name : string) :
  Event.__getitem__ e (VStr name)
  = rbind (Header.__getitem__ (Event.header e) (VStr name))
          (Event.__getitem__ e)
  /\ (name ∈ _EVENT_FIELD_NAMES
      <-> exists v, Event.__getitem__ e (VStr name) = Ok v)
  /\ (name ∉ _EVENT_FIELD_NAMES ->
      Event.__getitem__ e (VStr name) = Raise (Exn KeyError (VStr name))).
Proof.
  assert (Event.__getitem__ e (VStr name)
          = rbind (Header.index_of Event._header name)
                  (fun index => tuple_item (Event.astuple e) index)) as Hstr
    by reflexivity.
  split; [|split].
  - rewrite Hstr. unfold Event.header, Header.__getitem__, Header.index_of.
    simpl isinstance_int. cbv iota.
    by destruct (Header.names_to_idxs Event._header !! name).
  - rewrite Hstr. split.
    + intros Hin.
      apply (Header_index_of_defined_aux _EVENT_FIELD_NAMES) in Hin
        as (index & Hidx & Hrange).
      fold Event._header in Hidx. rewrite Hidx. simpl.
      apply Event_item_in_range. simpl in Hrange. lia.
    + intros [v Hv]. unfold Header.index_of in Hv.
      destruct (Header.names_to_idxs Event._header !! name)
        as [index|] eqn:Hlook; [|done].
      destruct (names_to_idxs_sound _ _ _ Hlook) as (j & _ & Hj).
      apply list_elem_of_lookup. by exists j.
  - intros Hnot. rewrite Hstr. unfold Header.index_of, Event._header.
    by rewrite (names_to_idxs_absent _ _ Hnot).
Qed.

Lemma Event_getitem_by_name_witness :
  let e := Event.__new__ (Some (VInt 1)) None None None (Some (VInt 120)) in
  Event.__getitem__ e (VStr "value") = Raise (Exn KeyError (VStr "value")).
Proof.
  intros e. apply (Event_getitem_by_name e "value").
  unfold _EVENT_FIELD_NAMES. intros Hin.
  repeat (apply elem_of_cons in Hin as [Hin|Hin]; [discriminate Hin|]).
  by apply elem_of_nil in Hin.
Defined.

(** An event is determined by its five positional items: two events that
    agree at every index of [0, 5) are the same event. *)
Theorem Event_positional_ext (a b : Event.t) :
  (forall i, 0 <= i < 5 ->
     Event.__getitem__ a (VInt i) = Event.__getitem__ b (VInt i)) ->
  a = b.
Proof.
  intros Hsame.
  pose proof (Hsame 0 ltac:(lia)) as H0.
  pose proof (Hsame 1 ltac:(lia)) as H1.
  pose proof (Hsame 2 ltac:(lia)) as H2.
  pose proof (Hsame 3 ltac:(lia)) as H3.
  pose proof (Hsame 4 ltac:(lia)) as H4.
  destruct a, b. cbv in H0, H1, H2, H3, H4. congruence.
Qed.

Lemma Event_positional_ext_witness :
  Event.__new__ (Some (VInt 1)) None None None None
  = Event.Build (VInt 1) VNone VNone VNone VNone.
Proof.
  apply Event_positional_ext. intros i Hi. reflexivity.
Defined.

(** ** Matching: order of evaluation *)

Lemma length_omap_le {A B} (f : A -> option B) (l : list A) :
  (length (omap f l) <= length l)%nat.
Proof.
  induction l as [|x l IH]; csimpl; [done|].
  destruct (f x); csimpl; lia.
Qed.

Lemma omap_cons_app {A B} (f : A -> option B) (x : A) (l : list A) :
  omap f (x :: l) = option_list (f x) ++ omap f l.
Proof. csimpl. by destruct (f x). Qed.

Lemma py_all_cons (m m' : M value) (rest : list (M value)) :
  py_all (m :: m' :: rest) = py_and m (py_all (m' :: rest)).
Proof. reflexivity. Qed.

Section Chain.

Variable code : nat -> value -> result value.

Let check (cv : value * value) : M value :=
  _valuepred_matches_value code cv.1 cv.2.

Let satisfied (cv : value * value) : Prop :=
  criterion_satisfied code cv.1 cv.2.

Lemma matches_as_chain (e : Event.t) (seq time dura ev val : value) :
  Event.matches code e seq time dura ev val
  = py_all (map check (criteria_in_order e seq time dura ev val)).
Proof. reflexivity. Qed.

Lemma valuepred_calls (cv : value * value) :
  calls_made (check cv) = option_list (expected_call cv).
Proof.
  destruct cv as [c v]. unfold check, expected_call. simpl.
  rewrite valuepred_unfold.
  destruct (is_Any c); [done|]. destruct (py_eq c v); [done|].
  by destruct c.
Qed.

Lemma check_truthy (cv : value * value) :
  returns_truthy (check cv) <-> satisfied cv.
Proof. apply valuepred_truthy. Qed.

Lemma py_and_left_fails (m rest : M value) :
  ~ returns_truthy m ->
  outcome (py_and m rest) = outcome m
  /\ calls_made (py_and m rest) = calls_made m.
Proof.
  intros Hnot. rewrite py_and_outcome, py_and_calls.
  destruct (outcome m) as [x|ex] eqn:Hm; [|done].
  destruct (truthy x) eqn:Hx; [|done].
  destruct Hnot. by exists x.
Qed.

Lemma py_and_left_truthy (m rest : M value) :
  returns_truthy m ->
  outcome (py_and m rest) = outcome rest
  /\ calls_made (py_and m rest) = calls_made m ++ calls_made rest.
Proof.
  intros (x & Hm & Hx). by rewrite py_and_outcome, py_and_calls, Hm, Hx.
Qed.

Lemma chain_first_failure (pre post : list (value * value))
    (cv : value * value) :
  Forall satisfied pre -> ~ satisfied cv ->
  outcome (py_all (map check (pre ++ cv :: post))) = outcome (check cv)
  /\ calls_made (py_all (map check (pre ++ cv :: post)))
     = omap expected_call pre ++ option_list (expected_call cv).
Proof.
  intros Hpre Hnot. rewrite <- check_truthy in Hnot.
  induction Hpre as [|a pre Ha Hpre IH].
  - rewrite <- valuepred_calls. rewrite app_nil_l.
    destruct post as [|b post]; simpl map; [done|].
    rewrite py_all_cons. by apply py_and_left_fails.
  - destruct IH as [IHout IHcalls].
    rewrite <- app_comm_cons. simpl map.
    destruct (map check (pre ++ cv :: post)) as [|m rest] eqn:Hmap.
    { by destruct pre. }
    rewrite py_all_cons.
    destruct (py_and_left_truthy (check a) (py_all (m :: rest))) as [-> ->].
    { by apply check_truthy. }
    rewrite IHout, IHcalls, valuepred_calls.
    split; [done|]. by rewrite omap_cons_app, app_assoc.
Qed.

Lemma chain_all_satisfied (pairs : list (value * value)) :
  Forall satisfied pairs ->
  calls_made (py_all (map check pairs)) = omap expected_call pairs.
Proof.
  induction 1 as [|a pairs Ha Hrest IH]; [done|].
  rewrite omap_cons_app, <- valuepred_calls, <- IH.
  destruct pairs as [|b pairs]; simpl map.
  - simpl. by rewrite app_nil_r.
  - rewrite py_all_cons.
    apply py_and_left_truthy. by apply check_truthy.
Qed.

Lemma chain_calls_prefix (pairs : list (value * value)) :
  calls_made (py_all (map check pairs)) `prefix_of` omap expected_call pairs.
Proof.
  induction pairs as [|a pairs IH]; [done|].
  rewrite omap_cons_app, <- valuepred_calls.
  destruct pairs as [|b pairs]; simpl map.
  - simpl. by rewrite app_nil_r.
  - rewrite py_all_cons, py_and_calls.
    destruct (outcome (check a)) as [x|ex];
      [destruct (truthy x)|]; try by apply prefix_app_r.
    by apply prefix_app.
Qed.

End Chain.



(** A predicate that raises makes the match raise the same exception, when
    the criteria checked before it are satisfied; the criteria after it are
    never checked. *)
Theorem matches_propagates_exception
    (code : nat -> value -> result value)
    (e : Event.t) (seq time dura ev val : value)
    (pre post : list (value * value)) (f : nat) (v : value) (ex : exn) :
  criteria_in_order e seq time dura ev val = pre ++ (VFunc f, v) :: post ->
  Forall (fun cv => criterion_satisfied code cv.1 cv.2) pre ->
  py_eq (VFunc f) v = false ->
  code f v = Raise ex ->
  Event.matches code e seq time dura ev val
  = (Raise ex, omap expected_call pre ++ [(f, v)]).
Proof.
  intros Hsplit Hpre Hneq Hraise. rewrite matches_as_chain, Hsplit.
  destruct (chain_first_failure code pre post (VFunc f, v) Hpre)
    as [Hout Hcalls].
  { intros Hsat. simpl in Hsat.
    destruct Hsat as [Hany|[Heq|(f' & r & [= <-] & Hr & _)]];
      [done | congruence | congruence]. }
  destruct (py_all _) as [out calls]. simpl in Hout, Hcalls.
  rewrite Hout, Hcalls. unfold expected_call. simpl fst. simpl snd.
  rewrite valuepred_unfold. simpl is_Any. cbv iota. rewrite Hneq.
  simpl. by rewrite Hraise.
Qed.

Lemma matches_propagates_exception_witness :
  let boom := Exn ValueError (VStr "bad value") in
  let code := fun (f : nat) (_ : value) =>
    if Nat.eqb f 0 then Ok (VBool true) else Raise boom in
  let e := Event.__new__ (Some (VInt 1)) (Some (VInt 3)) None
             (Some (VStr "bpSystolic")) (Some (VInt 120)) in
  Event.matches code e Any (VFunc 1) Any (VFunc 0) (VFunc 0)
  = (Raise boom,
     omap expected_call [(VFunc 0, VStr "bpSystolic")] ++ [(1%nat, VInt 3)]).
Proof.
  intros boom code e.
  apply (matches_propagates_exception code e Any (VFunc 1) Any (VFunc 0)
           (VFunc 0) [(VFunc 0, VStr "bpSystolic")]
           [(VFunc 0, VInt 120); (Any, VNone); (Any, VInt 1)]).
  - reflexivity.
  - constructor; [|constructor]. right; right.
    by exists 0%nat, (VBool true).
  - reflexivity.
  - reflexivity.
Defined.

(** The calls of a match follow the order ev, time, val, dura, seq, one
    call at most per criterion: the log is a prefix of the calls the five
    criteria lead to, all of them when the match is truthy, and never more
    than five. *)
Theorem matches_calls_in_order
    (code : nat -> value -> result value)
    (e : Event.t) (seq time dura ev val : value) :
  let expected :=
    omap expected_call (criteria_in_order e seq time dura ev val) in
  calls_made (Event.matches code e seq time dura ev val) `prefix_of` expected
  /\ (returns_truthy (Event.matches code e seq time dura ev val) ->
      calls_made (Event.matches code e seq time dura ev val) = expected)
  /\ (length (calls_made (Event.matches code e seq time dura ev val)) <= 5)%nat.
Proof.
  intros expected.
  assert (calls_made (Event.matches code e seq time dura ev val)
            `prefix_of` expected) as Hprefix.
  { rewrite matches_as_chain. apply chain_calls_prefix. }
  split; [exact Hprefix|]. split.
  - intros (Hs & Ht & Hd & He & Hv)%matches_truthy.
    rewrite matches_as_chain. apply chain_all_satisfied.
    unfold criteria_in_order.
    repeat (apply Forall_cons_2; [assumption|]). apply Forall_nil_2.
  - apply prefix_length in Hprefix. etrans; [exact Hprefix|].
    unfold expected. etrans; [apply length_omap_le|]. done.
Qed.

Lemma matches_calls_in_order_witness :
  let code := fun (_ : nat) (_ : value) => Ok (VBool true) in
  let e := Event.__new__ (Some (VInt 1)) (Some (VInt 3)) None
             (Some (VStr "bpSystolic")) (Some (VInt 120)) in
  calls_made (Event.matches code e (VFunc 7) Any Any (VFunc 8) (VInt 120))
  = omap expected_call
      (criteria_in_order e (VFunc 7) Any Any (VFunc 8) (VInt 120)).
Proof.
  intros code e.
  apply (matches_calls_in_order code e (VFunc 7) Any Any (VFunc 8) (VInt 120)).
  exists (VBool true). by split.
Defined.

(** Replacing criteria by the wildcard never loses a match. *)
Theorem matches_wildcard_weakens
    (code : nat -> value -> result value)
    (e : Event.t) (seq time dura ev val seq' time' dura' ev' val' : value) :
  seq' = seq \/ seq' = Any ->
  time' = time \/ time' = Any ->
  dura' = dura \/ dura' = Any ->
  ev' = ev \/ ev' = Any ->
  val' = val \/ val' = Any ->
  returns_truthy (Event.matches code e seq time dura ev val) ->
  returns_truthy (Event.matches code e seq' time' dura' ev' val').
Proof.
  intros Hs Ht Hd He Hv. rewrite !matches_truthy.
  intros (Hs' & Ht' & Hd' & He' & Hv').
  repeat split;
    match goal with
    | H : ?c' = _ \/ ?c' = Any |- criterion_satisfied _ ?c' _ =>
        destruct H as [->| ->]; [assumption | by left]
    end.
Qed.

Lemma matches_wildcard_weakens_witness :
  let code := fun (_ : nat) (v : value) => Ok (VBool (100 <? int_value v)) in
  let e := Event.__new__ (Some (VInt 1)) (Some (VInt 3)) None
             (Some (VStr "bpSystolic")) (Some (VInt 120)) in
  returns_truthy (Event.matches code e Any Any Any Any (VFunc 0)).
Proof.
  intros code e.
  apply (matches_wildcard_weakens code e
           (VInt 1) Any Any (VStr "bpSystolic") (VFunc 0)
           Any Any Any Any (VFunc 0)); try (by left); try (by right).
  exists (VBool true). by split.
Defined.

(** ** Header: names and indices, with repeated names *)

(** Looking up the name found at a valid index gives the last index at
    which that name stands: never an earlier one, and the index itself
    exactly when the name does not occur again after it. *)
Theorem Header_index_of_name_of (names : list string) (i : Z) :
  let h := Header.__init__ names in
  0 <= i < Header.__len__ h ->
  exists name j,
    Header.name_of h (VInt i) = Ok (VStr name)
    /\ Header.index_of h name = Ok j
    /\ i <= j < Header.__len__ h
    /\ Header.name_of h (VInt j) = Ok (VStr name)
    /\ (j = i <->
        forall k : nat, i < Z.of_nat k -> names !! k <> Some name).
Proof.
  intros h Hi. unfold Header.__len__ in *. simpl in Hi |- *.
  destruct (name_of_in_range names i Hi) as (name & Hname & Hof).
  destruct (last_position names name) as (j & Hj & Hmax).
  { apply list_elem_of_lookup. by eexists. }
  assert (Header.names_to_idxs h !! name = Some (Z.of_nat j)) as Hlook.
  { apply names_to_idxs_last; [done|].
    intros j' Hlt Hj'. apply Hmax in Hj'. lia. }
  exists name, (Z.of_nat j).
  split; [exact Hof|].
  split; [unfold Header.index_of; by rewrite Hlook|].
  pose proof (Hmax _ Hname) as Hle.
  apply lookup_lt_Some in Hj as Hlt.
  split; [lia|]. split.
  - destruct (name_of_in_range names (Z.of_nat j)) as (name' & Hname' & Hof');
      [lia|].
    rewrite Nat2Z.id, Hj in Hname'. by injection Hname' as <-.
  - split.
    + intros <- k Hk Hk'. apply Hmax in Hk'. lia.
    + intros Hnone. destruct (decide (Z.of_nat j = i)) as [|Hne]; [done|].
      destruct (Hnone j); [lia | done].
Qed.

Lemma Header_index_of_name_of_witness :
  let h := Header.__init__ ["a"; "b"; "a"] in
  exists name j,
    Header.name_of h (VInt 0) = Ok (VStr name)
    /\ Header.index_of h name = Ok j
    /\ 0 <= j < Header.__len__ h
    /\ Header.name_of h (VInt j) = Ok (VStr name)
    /\ (j = 0 <->
        forall k : nat, 0 < Z.of_nat k -> ["a"; "b"; "a"] !! k <> Some name).
Proof.
  intros h. apply (Header_index_of_name_of ["a"; "b"; "a"] 0).
  vm_compute. by split.
Defined.

(** * Matching over objects of any kind *)

Section DynamicProperties.

Context {Obj Err : Type} {objs : Objects Obj Err}.

Lemma of_bool_truth (b : bool) : obj_bool (Dynamic.of_bool b) = inr b.
Proof. destruct b; [apply obj_bool_True | apply obj_bool_False]. Qed.

(** The probes of a check over any objects, in the order the code makes
    them. *)
Lemma dyn_valuepred_unfold (c v : Obj) :
  Dynamic._valuepred_matches_value c v
  = if obj_is_Any c then inr obj_True
    else match obj_eq c v with
         | inl e => inl e
         | inr r =>
             match obj_bool r with
             | inl e => inl e
             | inr true => inr r
             | inr false =>
                 if obj_callable c then obj_call c v else inr obj_False
             end
         end.
Proof.
  unfold Dynamic._valuepred_matches_value, Dynamic.py_or, Dynamic.py_and.
  rewrite !of_bool_truth.
  destruct (obj_is_Any c); [done|].
  destruct (obj_eq c v) as [e|r]; [done|].
  destruct (obj_bool r) as [e|[|]]; [done..|].
  by destruct (obj_callable c).
Qed.

Lemma dyn_valuepred_boolean (c v : Obj) :
  (obj_is_Any c = false -> Dynamic.boolean_eq c v /\ Dynamic.boolean_call c v) ->
  exists b, Dynamic._valuepred_matches_value c v = inr (Dynamic.of_bool b).
Proof.
  intros Hbool. rewrite dyn_valuepred_unfold.
  destruct (obj_is_Any c); [by exists true|].
  destruct Hbool as [[b Heq] Hcall]; [done|].
  rewrite Heq, of_bool_truth. destruct b; [by exists true|].
  destruct (obj_callable c) eqn:Hc; [by apply Hcall | by exists false].
Qed.

Lemma dyn_py_and_boolean (a b : sum Err Obj) :
  (exists x, a = inr (Dynamic.of_bool x)) ->
  (exists y, b = inr (Dynamic.of_bool y)) ->
  exists z, Dynamic.py_and a b = inr (Dynamic.of_bool z).
Proof.
  intros [x ->] [y ->]. unfold Dynamic.py_and. rewrite of_bool_truth.
  destruct x; [by exists y | by exists false].
Qed.

Lemma dyn_valuepred_range (c v r : Obj) :
  Dynamic._valuepred_matches_value c v = inr r ->
  r = obj_True \/ r = obj_False
  \/ (obj_is_Any c = false
      /\ (obj_eq c v = inr r
          \/ (obj_callable c = true /\ obj_call c v = inr r))).
Proof.
  rewrite dyn_valuepred_unfold.
  destruct (obj_is_Any c); [intros [= <-]; by left|].
  destruct (obj_eq c v) as [e|r0]; [done|].
  destruct (obj_bool r0) as [e|[|]]; [done| |].
  - intros [= <-]. right; right. split; [done|]. by left.
  - destruct (obj_callable c).
    + intros Hcall. right; right. split; [done|]. by right.
    + intros [= <-]. right; by left.
Qed.

Lemma dyn_py_and_range (a b : sum Err Obj) (r : Obj) :
  Dynamic.py_and a b = inr r -> a = inr r \/ b = inr r.
Proof.
  unfold Dynamic.py_and. destruct a as [e|x]; [done|].
  destruct (obj_bool x) as [e|[|]]; [done | by right | by left].
Qed.

Lemma dyn_valuepred_raise (c v : Obj) (ex : Err) :
  Dynamic._valuepred_matches_value c v = inl ex ->
  obj_is_Any c = false
  /\ (obj_eq c v = inl ex
      \/ (exists r, obj_eq c v = inr r /\ obj_bool r = inl ex)
      \/ (exists r, obj_eq c v = inr r /\ obj_bool r = inr false
                    /\ obj_callable c = true /\ obj_call c v = inl ex)).
Proof.
  rewrite dyn_valuepred_unfold.
  destruct (obj_is_Any c); [done|]. split; [done|].
  destruct (obj_eq c v) as [e|r] eqn:Heq; [left; congruence|].
  destruct (obj_bool r) as [e|[|]] eqn:Hr.
  - right; left. exists r. split; [done|]. congruence.
  - done.
  - destruct (obj_callable c); [|done].
    right; right. by exists r.
Qed.

(** A check returned an object whose truth value raises: the object came
    from calling the criterion. *)
Lemma dyn_valuepred_bad_truth (c v x : Obj) (ex : Err) :
  Dynamic._valuepred_matches_value c v = inr x -> obj_bool x = inl ex ->
  obj_is_Any c = false
  /\ exists r, obj_eq c v = inr r /\ obj_bool r = inr false
               /\ obj_callable c = true /\ obj_call c v = inr x.
Proof.
  rewrite dyn_valuepred_unfold.
  destruct (obj_is_Any c).
  { intros [= <-]. by rewrite obj_bool_True. }
  intros Hx Hbad. split; [done|].
  destruct (obj_eq c v) as [e|r]; [done|].
  destruct (obj_bool r) as [e|[|]] eqn:Hr; [done| |].
  - injection Hx as <-. congruence.
  - destruct (obj_callable c).
    + by exists r.
    + injection Hx as <-. by rewrite obj_bool_False in Hbad.
Qed.

Lemma dyn_py_and_raise (a b : sum Err Obj) (ex : Err) :
  Dynamic.py_and a b = inl ex ->
  a = inl ex \/ (exists x, a = inr x /\ obj_bool x = inl ex) \/ b = inl ex.
Proof.
  unfold Dynamic.py_and. destruct a as [e|x]; [by left|].
  destruct (obj_bool x) as [e|[|]] eqn:Hx; [|by right; right|done].
  intros [= <-]. right; left. by exists x.
Qed.

Lemma dyn_valuepred_truthy (c v : Obj) :
  Dynamic.returns_truthy (Dynamic._valuepred_matches_value c v)
  <-> Dynamic.satisfied c v.
Proof.
  rewrite dyn_valuepred_unfold.
  unfold Dynamic.returns_truthy, Dynamic.satisfied.
  destruct (obj_is_Any c) eqn:Hany.
  { apply obj_is_Any_spec in Hany. split; [by left|]. intros _.
    exists obj_True. split; [done | apply obj_bool_True]. }
  assert (c <> obj_Any) as Hne.
  { intros Heq%obj_is_Any_spec. congruence. }
  destruct (obj_eq c v) as [e|r] eqn:Heq.
  { split; [by intros (x & ? & _)|].
    intros [?|[(x & ? & _)|(x & x' & ? & _)]]; done. }
  destruct (obj_bool r) as [e|[|]] eqn:Hr.
  - split; [by intros (x & ? & _)|].
    intros [?|[(x & [= <-] & ?)|(x & x' & [= <-] & ? & _)]]; congruence.
  - split; [|by exists r]. intros _. right; left. by exists r.
  - destruct (obj_callable c) eqn:Hcall.
    + split.
      * intros (x & Hx & Ht). right; right. by exists r, x.
      * intros [?|[(x & [= <-] & ?)|(x & x' & [= <-] & _ & _ & Hx & Ht)]];
          [done | congruence | by exists x'].
    + split.
      * intros (x & [= <-] & Ht). rewrite obj_bool_False in Ht. done.
      * intros [?|[(x & [= <-] & ?)|(x & x' & _ & _ & ? & _)]];
          [done | congruence | done].
Qed.

Lemma dyn_py_and_truthy (a b : sum Err Obj) :
  Dynamic.returns_truthy (Dynamic.py_and a b)
  <-> Dynamic.returns_truthy a /\ Dynamic.returns_truthy b.
Proof.
  unfold Dynamic.returns_truthy, Dynamic.py_and.
  destruct a as [e|x].
  { split; [by intros (r & ? & _) | by intros [(r & ? & _) _]]. }
  destruct (obj_bool x) as [e|[|]] eqn:Hx.
  - split; [by intros (r & ? & _)|].
    intros [(r & [= <-] & ?) _]. congruence.
  - split; [intros Hb; split; [by exists x | done] | by intros [_ Hb]].
  - split.
    + intros (r & [= <-] & ?). congruence.
    + intros [(r & [= <-] & ?) _]. congruence.
Qed.

End DynamicProperties.

(** On the built-in objects the match over any objects is the match of
    [Event.matches]. *)
Lemma valuepred_builtin_objects (code : nat -> value -> result value)
    (c v : value) :
  to_sum (outcome (_valuepred_matches_value code c v))
  = Dynamic._valuepred_matches_value (objs := builtin_objects code) c v.
Proof.
  rewrite valuepred_unfold, dyn_valuepred_unfold. simpl.
  destruct (is_Any c); [done|]. destruct (py_eq c v); [done|].
  by destruct c.
Qed.

Lemma py_and_builtin_objects (code : nat -> value -> result value)
    (a b : M value) :
  to_sum (outcome (py_and a b))
  = Dynamic.py_and (objs := builtin_objects code)
      (to_sum (outcome a)) (to_sum (outcome b)).
Proof.
  rewrite py_and_outcome. unfold Dynamic.py_and.
  destruct (outcome a) as [x|e]; simpl; [|done]. by destruct (truthy x).
Qed.

Lemma matches_builtin_objects (code : nat -> value -> result value)
    (e : Event.t) (seq time dura ev val : value) :
  to_sum (outcome (Event.matches code e seq time dura ev val))
  = Dynamic.matches (objs := builtin_objects code) (as_dynamic e)
      seq time dura ev val.
Proof.
  unfold Event.matches, Dynamic.matches.
  by rewrite !(py_and_builtin_objects code), !valuepred_builtin_objects.
Qed.

(** C9, amended.  Over objects of any kind, a match returns [True] or
    [False] when, for every criterion that is not the wildcard, comparing
    it with its field returns a boolean and, if it is callable, it returns
    a boolean on its field.  Nothing is coerced: whatever a match returns
    is [True], [False], or the very object that a comparison
    [criterion == field] or a callable criterion returned. *)
Theorem matches_result_uncoerced {Obj Err : Type} {objs : Objects Obj Err}
    (e : Dynamic.Event Obj) (seq time dura ev val : Obj) :
  let criteria := Dynamic.criteria_in_order e seq time dura ev val in
  ((forall c v, (c, v) ∈ criteria -> obj_is_Any c = false ->
      Dynamic.boolean_eq c v /\ Dynamic.boolean_call c v) ->
   exists b, Dynamic.matches e seq time dura ev val = inr (Dynamic.of_bool b))
  /\ (forall r,
        Dynamic.matches e seq time dura ev val = inr r ->
        r = obj_True \/ r = obj_False
        \/ exists c v,
             (c, v) ∈ criteria /\ obj_is_Any c = false
             /\ (obj_eq c v = inr r
                 \/ (obj_callable c = true /\ obj_call c v = inr r))).
Proof.
  intros criteria. split.
  - intros Hbool. unfold Dynamic.matches.
    repeat apply dyn_py_and_boolean;
      apply dyn_valuepred_boolean; apply Hbool;
      unfold criteria, Dynamic.criteria_in_order;
      repeat first [apply list_elem_of_here | apply list_elem_of_further].
  - intros r Hr. unfold Dynamic.matches in Hr.
    repeat (apply dyn_py_and_range in Hr as [Hr|Hr]);
      (apply dyn_valuepred_range in Hr as [Hr|[Hr|[Hany Hr]]];
       [by left | by right; left | right; right; eexists _, _;
        split; [|by split]]);
      unfold criteria, Dynamic.criteria_in_order;
      repeat first [apply list_elem_of_here | apply list_elem_of_further].
Qed.

Lemma matches_result_uncoerced_witness :
  let code := fun (_ : nat) (v : value) => Ok (VBool (200 <? int_value v)) in
  let e := Event.__new__ (Some (VInt 1)) None None (Some (VStr "bpSystolic"))
             (Some (VInt 120)) in
  exists b,
    Dynamic.matches (objs := builtin_objects code) (as_dynamic e)
      Any Any Any (VStr "bpSystolic") (VFunc 0)
    = inr (Dynamic.of_bool (objs := builtin_objects code) b).
Proof.
  intros code e.
  apply (matches_result_uncoerced (objs := builtin_objects code)
           (as_dynamic e) Any Any Any (VStr "bpSystolic") (VFunc 0)).
  intros c v Hin Hany. split.
  - exists (py_eq c v). simpl. by destruct (py_eq c v).
  - intros Hcall. destruct c; try discriminate Hcall.
    exists (200 <? int_value v). simpl. by destruct (200 <? int_value v).
Defined.

Lemma dyn_check_blame {Obj Err : Type} {objs : Objects Obj Err}
    (c v : Obj) (ex : Err) :
  Dynamic._valuepred_matches_value c v = inl ex
  \/ (exists x, Dynamic._valuepred_matches_value c v = inr x
                /\ obj_bool x = inl ex) ->
  Dynamic.raised_by c v ex.
Proof.
  intros [Hraise|(x & Hx & Hbad)].
  - apply dyn_valuepred_raise in Hraise
      as (Hany & [Heq|[(r & Heq & Hr)|(r & Heq & Hr & Hcall & Hex)]]).
    + split; [done|]. by left.
    + split; [done|]. right; left. by exists r.
    + split; [done|]. right; right. exists r. repeat split; try done. by left.
  - destruct (dyn_valuepred_bad_truth c v x ex Hx Hbad)
      as (Hany & r & Heq & Hr & Hcall & Hex).
    split; [done|]. right; right. exists r. repeat split; try done.
    right. by exists x.
Qed.

(** Over objects of any kind, a match raises nothing of its own: an
    exception that leaves it was raised while one of the criteria, not
    the wildcard, was checked against its field, by the comparison, by a
    truth value, or by the call of a callable criterion whose comparison
    was falsy.  No exception comes from calling a criterion that is not
    callable. *)
Theorem matches_raises_nothing_of_its_own
    {Obj Err : Type} {objs : Objects Obj Err}
    (e : Dynamic.Event Obj) (seq time dura ev val : Obj) (ex : Err) :
  Dynamic.matches e seq time dura ev val = inl ex ->
  exists c v,
    (c, v) ∈ Dynamic.criteria_in_order e seq time dura ev val
    /\ Dynamic.raised_by c v ex.
Proof.
  unfold Dynamic.matches, Dynamic.criteria_in_order. intros Hr.
  repeat (apply dyn_py_and_raise in Hr as [Hr|[Hr|Hr]];
          [apply (fun H => dyn_check_blame _ _ _ (or_introl H)) in Hr
          |apply (fun H => dyn_check_blame _ _ _ (or_intror H)) in Hr
          |]);
    try apply (fun H => dyn_check_blame _ _ _ (or_introl H)) in Hr;
    (eexists _, _; split; [|exact Hr]);
    repeat first [apply list_elem_of_here | apply list_elem_of_further].
Qed.

Lemma matches_raises_nothing_of_its_own_witness :
  let boom := Exn ValueError (VStr "bad value") in
  let code : nat -> value -> result value := fun _ _ => Raise boom in
  let e := Event.__new__ None None None None (Some (VInt 120)) in
  exists c v,
    (c, v) ∈ Dynamic.criteria_in_order (as_dynamic e) Any Any Any Any (VFunc 3)
    /\ Dynamic.raised_by (objs := builtin_objects code) c v boom.
Proof.
  intros boom code e.
  apply (matches_raises_nothing_of_its_own (objs := builtin_objects code)
           (as_dynamic e) Any Any Any Any (VFunc 3) boom).
  reflexivity.
Defined.

(** Over objects of any kind, a match returns a truthy object iff every
    criterion is satisfied by its field: it is the wildcard, or comparing
    it with the field returns a truthy object, or that returns a falsy
    object and the criterion, being callable, returns a truthy object on
    the field. *)
Theorem matches_truthy_any_objects {Obj Err : Type} {objs : Objects Obj Err}
    (e : Dynamic.Event Obj) (seq time dura ev val : Obj) :
  Dynamic.returns_truthy (Dynamic.matches e seq time dura ev val)
  <-> Dynamic.satisfied seq (Dynamic.seq e)
      /\ Dynamic.satisfied time (Dynamic.time e)
      /\ Dynamic.satisfied dura (Dynamic.dura e)
      /\ Dynamic.satisfied ev (Dynamic.ev e)
      /\ Dynamic.satisfied val (Dynamic.val e).
Proof.
  unfold Dynamic.matches. rewrite !dyn_py_and_truthy, !dyn_valuepred_truthy.
  tauto.
Qed.

(** With objects whose [==] does not answer with a boolean, the match hands
    on what the comparison gave, with no predicate supplied: the array it
    returned, or the exception it raised. *)
Example matches_sample_objects :
  let e := Dynamic.Build (SInt 1) (SInt 3) SAny SArray (SInt 120) in
  Dynamic.matches e SAny SAny SAny SAny (SInt 120) = inr STrue
  /\ Dynamic.matches e SArray SAny SAny SAny SAny = inr SArray
  /\ Dynamic.matches e SBroken SAny SAny SAny SAny = inl "RuntimeError"
  /\ Dynamic.matches e SAny SAny SAny SBroken SAny = inl "RuntimeError".
Proof. repeat split. Qed.

(** * Keys of every kind *)

Lemma slice_index_accepted (b : value) :
  is_slice_index b = true ->
  slice_index b = Ok (if isinstance_int b then Some (int_value b) else None).
Proof. by destruct b. Qed.

Lemma slice_index_refused (b : value) :
  is_slice_index b = false -> fails_with TypeError (slice_index b).
Proof. by destruct b. Qed.

Lemma adjust_bound_range (n st b : Z) :
  0 <= n ->
  (0 < st -> 0 <= adjust_bound n st b <= n)
  /\ (st < 0 -> -1 <= adjust_bound n st b <= n - 1).
Proof.
  intros Hn. unfold adjust_bound.
  split; intros Hs;
    destruct (b <? 0) eqn:Hb, (b + n <? 0) eqn:Hbn, (n <=? b) eqn:Hnb,
      (st <? 0) eqn:Hst; cbv iota; lia.
Qed.

Lemma slice_length_le (n lo hi st : Z) :
  0 <= n ->
  (0 < st -> 0 <= lo <= n /\ 0 <= hi <= n) ->
  (st < 0 -> -1 <= lo <= n - 1 /\ -1 <= hi <= n - 1) ->
  st <> 0 ->
  slice_length lo hi st <= n.
Proof.
  intros Hn Hpos Hneg Hst. unfold slice_length.
  destruct (st <? 0) eqn:Hsign.
  - destruct Hneg as [Hlo Hhi]; [lia|].
    destruct (hi <? lo) eqn:Hlt; [|lia].
    assert ((lo - hi - 1) / - st <= lo - hi - 1); [|lia].
    apply Z.div_le_upper_bound; nia.
  - destruct Hpos as [Hlo Hhi]; [lia|].
    destruct (lo <? hi) eqn:Hlt; [|lia].
    assert ((hi - lo - 1) / st <= hi - lo - 1); [|lia].
    apply Z.div_le_upper_bound; nia.
Qed.

Lemma slice_items_length (t : list value) (start stop : option Z) (st : Z) :
  st <> 0 -> (length (slice_items t start stop st) <= length t)%nat.
Proof.
  intros Hst. unfold slice_items.
  etrans; [apply length_omap_le|]. rewrite length_seq.
  set (n := Z.of_nat (length t)).
  assert (0 <= n) as Hn by lia.
  match goal with
  | |- (Z.to_nat (slice_length ?lo ?hi st) <= _)%nat =>
      assert (slice_length lo hi st <= n); [|lia];
      apply slice_length_le; [done| | |done]
  end.
  - intros Hpos. destruct (st <? 0) eqn:Hsign; [lia|].
    destruct start, stop; repeat split;
      try (apply (adjust_bound_range n st); lia); lia.
  - intros Hneg. destruct (st <? 0) eqn:Hsign; [|lia].
    destruct start, stop; repeat split;
      try (apply (adjust_bound_range n st); lia); lia.
Qed.

Lemma slice_items_elem_of (t : list value) (start stop : option Z) (st : Z)
    (x : value) :
  x ∈ slice_items t start stop st -> x ∈ t.
Proof.
  unfold slice_items. intros (k & _ & Hk)%list_elem_of_omap.
  by apply list_elem_of_lookup_2 in Hk.
Qed.

Lemma omap_lookup_run (t : list value) (a c : nat) :
  (a + c <= length t)%nat ->
  omap (fun k : nat => t !! Z.to_nat (Z.of_nat a + Z.of_nat k * 1)) (seq 0 c)
  = take c (drop a t).
Proof.
  induction c as [|c IH]; intros Hlen; [done|].
  rewrite seq_S, omap_app, IH by lia. simpl.
  replace (Z.to_nat (Z.of_nat a + Z.of_nat c * 1)) with (a + c)%nat by lia.
  destruct (lookup_lt_is_Some_2 t (a + c)) as [x Hx]; [lia|].
  rewrite Hx. symmetry. apply take_S_r. by rewrite lookup_drop.
Qed.

Lemma slice_items_contiguous (t : list value) (a b : nat) :
  (a <= b <= length t)%nat ->
  slice_items t (Some (Z.of_nat a)) (Some (Z.of_nat b)) 1
  = take (b - a) (drop a t).
Proof.
  intros Hab. unfold slice_items.
  assert (forall x : nat, (x <= length t)%nat ->
            adjust_bound (Z.of_nat (length t)) 1 (Z.of_nat x) = Z.of_nat x)
    as Hadj.
  { intros x Hx. unfold adjust_bound.
    destruct (Z.of_nat x <? 0) eqn:H1; [lia|].
    destruct (Z.of_nat (length t) <=? Z.of_nat x) eqn:H2; [|done].
    simpl. lia. }
  rewrite !Hadj by lia.
  assert (Z.to_nat (slice_length (Z.of_nat a) (Z.of_nat b) 1) = (b - a)%nat)
    as ->.
  { unfold slice_length. simpl. rewrite Z.div_1_r.
    destruct (Z.of_nat a <? Z.of_nat b) eqn:Hlt; lia. }
  by rewrite omap_lookup_run by lia.
Qed.

(** What slicing a tuple does, by the three parts of the slice. *)
Lemma tuple_slice_cases (t : list value) (start stop step : value) :
  (is_slice_index step = false
   /\ fails_with TypeError (tuple_slice t start stop step))
  \/ (is_slice_index step = true /\ is_zero_step step = true
      /\ fails_with ValueError (tuple_slice t start stop step))
  \/ (is_slice_index step = true /\ is_zero_step step = false
      /\ (is_slice_index start = false \/ is_slice_index stop = false)
      /\ fails_with TypeError (tuple_slice t start stop step))
  \/ (is_slice_index step = true /\ is_zero_step step = false
      /\ is_slice_index start = true /\ is_slice_index stop = true
      /\ exists items,
           tuple_slice t start stop step = Ok (VTuple items)
           /\ (length items <= length t)%nat
           /\ forall x, x ∈ items -> x ∈ t).
Proof.
  unfold tuple_slice.
  destruct (is_slice_index step) eqn:Hstep.
  2: { left. split; [done|].
       pose proof (slice_index_refused step Hstep) as Hfail.
       by destruct (slice_index step). }
  right. rewrite (slice_index_accepted step Hstep). simpl rbind.
  set (st := default 1 (if isinstance_int step then Some (int_value step)
                        else None)).
  assert ((st =? 0) = is_zero_step step) as Hzero.
  { unfold st, is_zero_step. by destruct (isinstance_int step). }
  rewrite Hzero. destruct (is_zero_step step) eqn:Hz.
  { left. by repeat split. }
  right.
  destruct (is_slice_index start) eqn:Hstart.
  2: { left. repeat split; [by left|].
       pose proof (slice_index_refused start Hstart) as Hfail.
       by destruct (slice_index start). }
  rewrite (slice_index_accepted start Hstart). simpl rbind.
  destruct (is_slice_index stop) eqn:Hstop.
  2: { left. repeat split; [by right|].
       pose proof (slice_index_refused stop Hstop) as Hfail.
       by destruct (slice_index stop). }
  rewrite (slice_index_accepted stop Hstop). simpl rbind.
  right. repeat split. eexists. split; [reflexivity|]. split.
  - apply slice_items_length. lia.
  - apply slice_items_elem_of.
Qed.

(** The failures of native indexing of a tuple of [n] items. *)
Lemma tuple_getitem_failures (t : list value) (key : value) (ex : exn) :
  tuple_getitem t key = Raise ex ->
  (isinstance_int key = true
   /\ (int_value key < - Z.of_nat (length t)
       \/ Z.of_nat (length t) <= int_value key)
   /\ kind ex = IndexError)
  \/ (exists start stop step,
        key = VSlice start stop step
        /\ ((is_slice_index step = true /\ is_zero_step step = true
             /\ kind ex = ValueError)
            \/ ((is_slice_index start = false \/ is_slice_index stop = false
                 \/ is_slice_index step = false)
                /\ kind ex = TypeError)))
  \/ (isinstance_int key = false /\ isinstance_slice key = false
      /\ kind ex = TypeError).
Proof.
  intros Hraise.
  assert (forall i, tuple_item t i = Raise ex ->
            (i < - Z.of_nat (length t) \/ Z.of_nat (length t) <= i)
            /\ kind ex = IndexError) as Hitem.
  { intros i Hi.
    destruct (decide (- Z.of_nat (length t) <= i < Z.of_nat (length t)))
      as [Hin|Hout].
    - destruct (decide (0 <= i)) as [Hpos|Hneg].
      + destruct (tuple_item_in_range t i) as (v & _ & Hv); [lia|]. congruence.
      + rewrite tuple_item_from_end in Hi by lia.
        destruct (tuple_item_in_range t (i + Z.of_nat (length t)))
          as (v & _ & Hv); [lia|]. congruence.
    - rewrite tuple_item_out_of_range in Hi by lia.
      injection Hi as <-. split; [lia | apply index_error_for_kind]. }
  destruct key as [|b|n|s|items|start stop step|f|]; simpl in Hraise;
    try (right; right; injection Hraise as <-; by repeat split).
  - left. split; [done|]. by apply Hitem.
  - left. split; [done|]. by apply Hitem.
  - right; left. exists start, stop, step. split; [done|].
    destruct (tuple_slice_cases t start stop step)
      as [[Hstep Hfail]|[(Hstep & Hzero & Hfail)
         |[(Hstep & Hzero & Hbad & Hfail)
          |(_ & _ & _ & _ & its & Hits & _)]]];
      rewrite Hraise in *; simpl in *; [| | |done].
    + right. split; [|done]. by right; right.
    + by left.
    + right. split; [|done]. destruct Hbad; [by left | by right; left].
Qed.

(** The failures of [name_of], by kind of index among the built-in
    objects.  An integer fails only outside [-N, N), with IndexError; a
    slice fails with ValueError for a zero step and with TypeError when one
    of its three parts is neither [None] nor an integer; an index of any
    other type, a name included, raises TypeError.  [name_of] never raises
    KeyError. *)
Theorem Header_name_of_failures (names : list string) (index : value)
    (ex : exn) :
  let h := Header.__init__ names in
  Header.name_of h index = Raise ex ->
  (isinstance_int index = true
   /\ (int_value index < - Header.__len__ h
       \/ Header.__len__ h <= int_value index)
   /\ kind ex = IndexError)
  \/ (exists start stop step,
        index = VSlice start stop step
        /\ ((is_slice_index step = true /\ is_zero_step step = true
             /\ kind ex = ValueError)
            \/ ((is_slice_index start = false \/ is_slice_index stop = false
                 \/ is_slice_index step = false)
                /\ kind ex = TypeError)))
  \/ (isinstance_int index = false /\ isinstance_slice index = false
      /\ kind ex = TypeError).
Proof.
  intros h Hraise. unfold Header.name_of in Hraise.
  apply tuple_getitem_failures in Hraise.
  unfold Header.__len__. by rewrite length_map in Hraise.
Qed.

Lemma Header_name_of_failures_witness :
  let h := Header.__init__ _EVENT_FIELD_NAMES in
  let ex := Exn TypeError
              (VStr "tuple indices must be integers or slices, not str") in
  (isinstance_int (VStr "seq") = true
   /\ (int_value (VStr "seq") < - Header.__len__ h
       \/ Header.__len__ h <= int_value (VStr "seq"))
   /\ kind ex = IndexError)
  \/ (exists start stop step,
        VStr "seq" = VSlice start stop step
        /\ ((is_slice_index step = true /\ is_zero_step step = true
             /\ kind ex = ValueError)
            \/ ((is_slice_index start = false \/ is_slice_index stop = false
                 \/ is_slice_index step = false)
                /\ kind ex = TypeError)))
  \/ (isinstance_int (VStr "seq") = false
      /\ isinstance_slice (VStr "seq") = false
      /\ kind ex = TypeError).
Proof.
  intros h ex.
  apply (Header_name_of_failures _EVENT_FIELD_NAMES (VStr "seq") ex).
  reflexivity.
Defined.

(** The failures of event access, by kind of key among the built-in
    objects.  An integer key fails only outside [-5, 5), with IndexError; a
    slice key fails with ValueError for a zero step and with TypeError when
    one of its three parts is neither [None] nor an integer; every other
    failure is a KeyError carrying the key, raised for a string that is not
    a field name and for a key of any other type. *)
Theorem Event_getitem_failures (e : Event.t) (key : value) (ex : exn) :
  Event.__getitem__ e key = Raise ex ->
  (isinstance_int key = true
   /\ (int_value key < -5 \/ 5 <= int_value key)
   /\ kind ex = IndexError)
  \/ (exists start stop step,
        key = VSlice start stop step
        /\ ((is_slice_index step = true /\ is_zero_step step = true
             /\ kind ex = ValueError)
            \/ ((is_slice_index start = false \/ is_slice_index stop = false
                 \/ is_slice_index step = false)
                /\ kind ex = TypeError)))
  \/ (isinstance_int key = false /\ isinstance_slice key = false
      /\ ex = Exn KeyError key
      /\ forall name, key = VStr name -> name ∉ _EVENT_FIELD_NAMES).
Proof.
  intros Hraise.
  destruct (isinstance_int key || isinstance_slice key) eqn:Hnative.
  - assert (tuple_getitem (Event.astuple e) key = Raise ex) as Htuple.
    { unfold Event.__getitem__ in Hraise. by rewrite Hnative in Hraise. }
    apply tuple_getitem_failures in Htuple
      as [Hint|[Hslice|(Hint & Hslice & _)]].
    + left. by rewrite Event_astuple_length in Hint.
    + right; by left.
    + rewrite Hint, Hslice in Hnative. done.
  - apply orb_false_elim in Hnative as [Hint Hslice].
    right; right. split; [done|]. split; [done|].
    destruct key as [|b|n|name|items|start stop step|f|]; try done;
      try (injection Hraise as <-; by split).
    destruct (decide (name ∈ _EVENT_FIELD_NAMES)) as [Hin|Hnot].
    + apply (Event_getitem_by_name e name) in Hin as [v Hv]. congruence.
    + pose proof (Hnot' := Hnot).
      apply (Event_getitem_by_name e name) in Hnot'.
      rewrite Hnot' in Hraise. injection Hraise as <-.
      split; [done|]. by intros name' [= <-].
Qed.

Lemma Event_getitem_failures_witness :
  let e := Event.__new__ None None None None None in
  let ex := Exn TypeError (VStr
    "slice indices must be integers or None or have an __index__ method") in
  (isinstance_int (VSlice (VStr "a") (VStr "b") VNone) = true
   /\ (int_value (VSlice (VStr "a") (VStr "b") VNone) < -5
       \/ 5 <= int_value (VSlice (VStr "a") (VStr "b") VNone))
   /\ kind ex = IndexError)
  \/ (exists start stop step,
        VSlice (VStr "a") (VStr "b") VNone = VSlice start stop step
        /\ ((is_slice_index step = true /\ is_zero_step step = true
             /\ kind ex = ValueError)
            \/ ((is_slice_index start = false \/ is_slice_index stop = false
                 \/ is_slice_index step = false)
                /\ kind ex = TypeError)))
  \/ (isinstance_int (VSlice (VStr "a") (VStr "b") VNone) = false
      /\ isinstance_slice (VSlice (VStr "a") (VStr "b") VNone) = false
      /\ ex = Exn KeyError (VSlice (VStr "a") (VStr "b") VNone)
      /\ forall name, VSlice (VStr "a") (VStr "b") VNone = VStr name ->
                      name ∉ _EVENT_FIELD_NAMES).
Proof.
  intros e ex.
  apply (Event_getitem_failures e (VSlice (VStr "a") (VStr "b") VNone) ex).
  reflexivity.
Defined.

(** A slice key on an event never raises IndexError.  A part that is
    neither [None] nor an integer raises TypeError, the step being looked
    at first; a step that is the integer zero raises ValueError; otherwise
    the result is a tuple of at most five items, each one a field of the
    event; and [e[a:b]] with 0 <= a <= b <= 5 is the run of fields from
    position a up to, not including, position b. *)
Theorem Event_getitem_slice (e : Event.t) (start stop step : value) :
  let r := Event.__getitem__ e (VSlice start stop step) in
  (is_slice_index step = false -> fails_with TypeError r)
  /\ (is_slice_index step = true -> is_zero_step step = true ->
      fails_with ValueError r)
  /\ (is_slice_index step = true -> is_zero_step step = false ->
      is_slice_index start = false \/ is_slice_index stop = false ->
      fails_with TypeError r)
  /\ (is_slice_index step = true -> is_zero_step step = false ->
      is_slice_index start = true -> is_slice_index stop = true ->
      exists items,
        r = Ok (VTuple items)
        /\ (length items <= 5)%nat
        /\ forall x, x ∈ items -> x ∈ Event.astuple e)
  /\ (forall a b : nat, (a <= b <= 5)%nat ->
        Event.__getitem__ e (VSlice (VInt (Z.of_nat a)) (VInt (Z.of_nat b)) VNone)
        = Ok (VTuple (take (b - a) (drop a (Event.astuple e))))).
Proof.
  intros r.
  assert (r = tuple_slice (Event.astuple e) start stop step) as Hr
    by reflexivity.
  pose proof (tuple_slice_cases (Event.astuple e) start stop step) as Hcases.
  rewrite <- Hr in Hcases. clearbody r.
  split; [|split; [|split; [|split]]].
  - intros Hstep.
    destruct Hcases as [[_ Hf]|[(H1 & _)|[(H1 & _)|(H1 & _)]]];
      [done | congruence..].
  - intros Hstep Hz.
    destruct Hcases as [[H1 _]|[(_ & _ & Hf)|[(_ & H2 & _)|(_ & H2 & _)]]];
      [congruence | done | congruence..].
  - intros Hstep Hz Hbad.
    destruct Hcases
      as [[H1 _]|[(_ & H2 & _)|[(_ & _ & _ & Hf)|(_ & _ & Hs & Hp & _)]]];
      [congruence | congruence | done | destruct Hbad; congruence].
  - intros Hstep Hz Hs Hp.
    destruct Hcases
      as [[H1 _]|[(_ & H2 & _)|[(_ & _ & Hbad & _)
         |(_ & _ & _ & _ & items & Hitems & Hlen & Hin)]]];
      [congruence | congruence | destruct Hbad; congruence |].
    exists items. split; [done|]. split; [|done].
    by rewrite Event_astuple_length in Hlen.
  - intros a b Hab.
    change (tuple_slice (Event.astuple e) (VInt (Z.of_nat a))
              (VInt (Z.of_nat b)) VNone
            = Ok (VTuple (take (b - a) (drop a (Event.astuple e))))).
    unfold tuple_slice. simpl.
    by rewrite slice_items_contiguous.
Qed.

Lemma Event_getitem_slice_witness :
  let e := Event.__new__ (Some (VInt 1)) (Some (VInt 3)) None
             (Some (VStr "bpSystolic")) (Some (VInt 120)) in
  fails_with TypeError (Event.__getitem__ e (VSlice (VStr "a") (VStr "b") VNone))
  /\ fails_with ValueError (Event.__getitem__ e (VSlice VNone VNone (VInt 0)))
  /\ Event.__getitem__ e (VSlice (VInt 3) (VInt 5) VNone)
     = Ok (VTuple [VStr "bpSystolic"; VInt 120]).
Proof.
  intros e.
  destruct (Event_getitem_slice e (VStr "a") (VStr "b") VNone)
    as (_ & _ & Hbad & _ & Hrun).
  destruct (Event_getitem_slice e VNone VNone (VInt 0)) as (_ & Hzero & _).
  split; [apply Hbad; [reflexivity.. | by left]|].
  split; [apply Hzero; reflexivity|].
  apply (Hrun 3%nat 5%nat). lia.
Defined.
